(** * live-chat: the session server of [server.js]

    A shallow embedding of the Socket.IO event handlers of [server.js]
    (connection, user_join, ..., disconnect) as pure functions over the
    four pieces of module state ([serverSettings], [messages], [users],
    [voiceRooms]), together with the properties of the specification.

    Modelling conventions.
    - JavaScript [Map] and [Set] iterate in insertion order; they are
      association lists / lists here, with [set] keeping the position of
      an existing key and appending a new one.
    - A text is a [string] whose characters are its UTF-16 code units,
      taken by number (a character [c] is the code unit [nat_of_ascii c]);
      the embedding covers the texts whose code units are below 256, the
      Basic Latin and Latin-1 Supplement blocks.  On these [toLowerCase],
      [trim] and [\s] are the ones of ECMAScript: the letters with a
      lower-case form are A-Z and U+00C0-U+00DE without U+00D7, each 32
      below its lower-case form, and the white space and line terminator
      code units are 9-13, 32 and 160 (U+00A0).
    - [new Date()] and [uuidv4()] are inputs of a handler invocation
      (record [Oracle]).
    - An [emit] is recorded as a pair of an addressing mode and a payload,
      with the payload as it is at that moment; delivery is the
      transport's business and is not modelled. *)

From Stdlib Require Import List String Ascii Bool Arith ZArith Lia.
Import ListNotations.
Local Open Scope string_scope.
Local Open Scope list_scope.
Local Open Scope nat_scope.

Set Implicit Arguments.

(** ** Text utilities *)

Module Text.

(** White space and line terminators, as matched by [trim()] and by
    [\s]: TAB, LF, VT, FF, CR, SP and NBSP. *)
Definition is_space (c : ascii) : bool :=
  let n := nat_of_ascii c in
  ((9 <=? n) && (n <=? 13)) || (n =? 32) || (n =? 160).

(** The code units with a lower-case form of their own: A-Z, and
    U+00C0-U+00DE except the multiplication sign U+00D7. *)
Definition has_lower_form (n : nat) : bool :=
  ((65 <=? n) && (n <=? 90))
  || ((192 <=? n) && (n <=? 222) && negb (n =? 215)).

Definition lower_char (c : ascii) : ascii :=
  let n := nat_of_ascii c in
  if has_lower_form n then ascii_of_nat (n + 32) else c.

Fixpoint toLowerCase (s : string) : string :=
  match s with
  | EmptyString => EmptyString
  | String c r => String (lower_char c) (toLowerCase r)
  end.

Fixpoint filter_chars (keep : ascii -> bool) (s : string) : string :=
  match s with
  | EmptyString => EmptyString
  | String c r =>
      if keep c then String c (filter_chars keep r) else filter_chars keep r
  end.

Fixpoint trimStart (s : string) : string :=
  match s with
  | EmptyString => EmptyString
  | String c r => if is_space c then trimStart r else s
  end.

Fixpoint trimEnd (s : string) : string :=
  match s with
  | EmptyString => EmptyString
  | String c r =>
      match trimEnd r with
      | EmptyString => if is_space c then EmptyString else String c EmptyString
      | r' => String c r'
      end
  end.

Definition trim (s : string) : string := trimEnd (trimStart s).

Fixpoint startsWith (p s : string) : bool :=
  match p, s with
  | EmptyString, _ => true
  | String a p', String b s' => Ascii.eqb a b && startsWith p' s'
  | String _ _, EmptyString => false
  end.

(** [s.includes(q)] *)
Fixpoint includes (q s : string) : bool :=
  startsWith q s ||
  match s with
  | EmptyString => false
  | String _ r => includes q r
  end.

(** JavaScript truthiness of a string value. *)
Definition truthy (s : string) : bool :=
  match s with EmptyString => false | _ => true end.

End Text.

(** ** Insertion-ordered maps and sets *)

Module JsMap.
Section Ops.
Variable V : Type.

Definition t := list (string * V).

Fixpoint get (k : string) (m : t) : option V :=
  match m with
  | [] => None
  | (k', v) :: r => if String.eqb k k' then Some v else get k r
  end.

Definition has (k : string) (m : t) : bool :=
  match get k m with Some _ => true | None => false end.

(** [m.set(k, v)]: an existing key keeps its place. *)
Fixpoint set (k : string) (v : V) (m : t) : t :=
  match m with
  | [] => [(k, v)]
  | (k', v') :: r =>
      if String.eqb k k' then (k', v) :: r else (k', v') :: set k v r
  end.

Fixpoint delete (k : string) (m : t) : t :=
  match m with
  | [] => []
  | (k', v') :: r =>
      if String.eqb k k' then delete k r else (k', v') :: delete k r
  end.

Definition keys (m : t) : list string := map fst m.
Definition values (m : t) : list V := map snd m.
End Ops.
End JsMap.

Module JsSet.
Definition t := list string.

Definition has (x : string) (s : t) : bool :=
  existsb (String.eqb x) s.

Definition add (x : string) (s : t) : t :=
  if has x s then s else s ++ [x].

Definition delete (x : string) (s : t) : t :=
  filter (fun y => negb (String.eqb x y)) s.

Definition size (s : t) : nat := List.length s.
End JsSet.

(** ** Arrays *)

Module JsArray.
Section Ops.
Variable A : Type.

(** [a.findIndex(p)], with [None] for [-1]. *)
Fixpoint findIndex (p : A -> bool) (a : list A) : option nat :=
  match a with
  | [] => None
  | x :: r =>
      if p x then Some 0
      else match findIndex p r with
           | Some i => Some (S i)
           | None => None
           end
  end.

(** [a.splice(i, 1)] *)
Fixpoint splice1 (i : nat) (a : list A) : list A :=
  match a, i with
  | [], _ => []
  | _ :: r, 0 => r
  | x :: r, S j => x :: splice1 j r
  end.

(** [a[i] = f(a[i])] for an index in range. *)
Fixpoint update (i : nat) (f : A -> A) (a : list A) : list A :=
  match a, i with
  | [], _ => []
  | x :: r, 0 => f x :: r
  | x :: r, S j => x :: update j f r
  end.
End Ops.
End JsArray.

(** ** Data model *)

Definition SocketId := string.
Definition MessageId := string.
Definition RoomId := string.
Definition Timestamp := Z.

(** Client-supplied values the server stores or forwards without looking
    inside (formatting hints, attachment descriptors, WebRTC payloads). *)
Definition Opaque := string.

Record ServerSettings := mkSettings {
  allowHistoryForNewUsers : bool;
  maxMessageLength : Z;
  allowAttachments : bool;
  allowVoiceChat : bool;
  serverName : string;
  ownerId : option SocketId  (* [None] is [null] *)
}.

(** The argument of [update_server_settings]: the fields the object carries. *)
Record SettingsPatch := mkPatch {
  p_allowHistoryForNewUsers : option bool;
  p_maxMessageLength : option Z;
  p_allowAttachments : option bool;
  p_allowVoiceChat : option bool;
  p_serverName : option string;
  p_ownerId : option (option SocketId)
}.

Module User.
Record t := mk {
  id : SocketId;
  username : string;
  bubbleColor : string;
  isOwner : bool;
  joinTime : Timestamp
}.

Definition with_username (n : string) (u : t) : t :=
  mk (id u) n (bubbleColor u) (isOwner u) (joinTime u).
Definition with_bubbleColor (c : string) (u : t) : t :=
  mk (id u) (username u) c (isOwner u) (joinTime u).
Definition with_isOwner (b : bool) (u : t) : t :=
  mk (id u) (username u) (bubbleColor u) b (joinTime u).
End User.

Module MessageType.
Inductive t := system | user.
End MessageType.

Module Message.
Record t := mk {
  id : MessageId;
  type : MessageType.t;
  content : string;
  username : string;
  userId : option SocketId;          (* absent on system messages *)
  bubbleColor : option string;
  timestamp : Timestamp;
  formatting : option Opaque;
  attachment : option Opaque;
  replyTo : option MessageId;
  reactions : option (JsMap.t (list string));
  edited : bool;
  editedAt : option Timestamp
}.

Definition with_reactions (r : JsMap.t (list string)) (m : t) : t :=
  mk (id m) (type m) (content m) (username m) (userId m) (bubbleColor m)
     (timestamp m) (formatting m) (attachment m) (replyTo m) (Some r)
     (edited m) (editedAt m).

Definition with_edit (c : string) (at_ : Timestamp) (m : t) : t :=
  mk (id m) (type m) c (username m) (userId m) (bubbleColor m)
     (timestamp m) (formatting m) (attachment m) (replyTo m) (reactions m)
     true (Some at_).

(** The object literals of the join, rename and leave notices. *)
Definition notice (i : MessageId) (c : string) (ts : Timestamp) : t :=
  mk i MessageType.system c "System" None None ts None None None None false None.
End Message.

(** The module-level variables of [server.js]. *)
Record State := mkState {
  serverSettings : ServerSettings;
  messages : list Message.t;
  users : JsMap.t User.t;
  voiceRooms : JsMap.t JsSet.t
}.

Definition initialSettings : ServerSettings :=
  mkSettings true 1000%Z true true "Chat Server" None.

Definition initialState : State := mkState initialSettings [] [] [].

(** ** Inbound and outbound events *)

Module UserData.
Record t := mk {
  username : option string;      (* [None]: not a string *)
  bubbleColor : option string
}.
End UserData.

Module MessageData.
Record t := mk {
  content : option string;       (* [None]: not a string *)
  formatting : option Opaque;    (* [None]: absent, or a falsy value *)
  attachment : option Opaque;    (* [None]: absent, or a falsy value *)
  replyTo : option MessageId
}.
End MessageData.

Inductive Event :=
| connection
| user_join (userData : UserData.t)
| change_username (newUsername : option string)
| change_bubble_color (newColor : string)
| send_message (messageData : MessageData.t)
| edit_message (messageId : MessageId) (newContent : option string)
| delete_message (messageId : MessageId)
| add_reaction (messageId : MessageId) (emoji : string)
| join_voice (roomId : RoomId)
| leave_voice (roomId : RoomId)
| update_server_settings (newSettings : SettingsPatch)
| search_messages (query : option string)
| webrtc_offer (target : string) (offer : Opaque)
| webrtc_answer (target : string) (answer : Opaque)
| webrtc_ice_candidate (target : string) (candidate : Opaque)
| disconnect.

Module Out.
Inductive t :=
| owner_status (b : bool)
| server_settings (s : ServerSettings)
| user_data (u : User.t)
| message_history (ms : list Message.t)
| users_update (us : list User.t)
| new_message (m : Message.t)
| message_edited (messageId : MessageId) (newContent : string)
                 (edited : bool) (editedAt : Timestamp)
| message_deleted (messageId : MessageId)
| reaction_added (messageId : MessageId) (emoji : string) (users : list string)
| voice_user_joined (userId : SocketId) (username : string)
| voice_user_left (userId : SocketId)
| search_results (ms : list Message.t)
| webrtc_offer (offer : Opaque) (sender : SocketId)
| webrtc_answer (answer : Opaque) (sender : SocketId)
| webrtc_ice_candidate (candidate : Opaque) (sender : SocketId).
End Out.

(** How an [emit] is addressed. *)
Inductive Target :=
| ToSocket (sid : SocketId)                     (* [socket.emit] *)
| ToAll                                         (* [io.emit] *)
| ToRoom (room : string)                        (* [io.to(room).emit] *)
| ToRoomExcept (room : string) (sid : SocketId) (* [socket.to(room).emit] *).

Definition Emit := (Target * Out.t)%type.

(** What the runtime hands to one handler invocation: the results of its
    first and second [new Date()] and of its [uuidv4()]. *)
Record Oracle := mkOracle {
  date1 : Timestamp;
  date2 : Timestamp;
  uuid : MessageId
}.

(** ** Utility functions of [server.js] *)

(** [sanitizeInput]; the argument is [None] when [typeof input] is not
    ['string']. *)
Definition sanitizeInput (input : option string) : string :=
  match input with
  | None => ""
  | Some s =>
      Text.trim
        (Text.filter_chars
           (fun c => negb (Ascii.eqb c "<"%char || Ascii.eqb c ">"%char)) s)
  end.

Definition dquote : string := String "034"%char EmptyString.

(** The replacement template of [processMessage] with [$1] filled in. *)
Definition anchor (url : string) : string :=
  ("<a href=" ++ dquote ++ url ++ dquote ++ " target=" ++ dquote ++ "_blank"
   ++ dquote ++ " rel=" ++ dquote ++ "noopener noreferrer" ++ dquote ++ ">"
   ++ url ++ "</a>")%string.

Definition nonspace_at (n : nat) (s : string) : bool :=
  match String.get n s with
  | Some c => negb (Text.is_space c)
  | None => false
  end.

(** Does [/(https?:\/\/[^\s]+)/] match at the start of [s]? *)
Definition url_here (s : string) : bool :=
  (Text.startsWith "http://" s && nonspace_at 7 s)
  || (Text.startsWith "https://" s && nonspace_at 8 s).

(** The global replace, as a scan: outside a match ([url = None]) a
    character is copied unless a match starts there; a match runs to the
    next white space or the end of the text. *)
Fixpoint linkify (url : option string) (s : string) : string :=
  match s with
  | EmptyString =>
      match url with Some u => anchor u | None => EmptyString end
  | String c r =>
      match url with
      | Some u =>
          if Text.is_space c then (anchor u ++ String c (linkify None r))%string
          else linkify (Some (u ++ String c EmptyString)%string) r
      | None =>
          if url_here s then linkify (Some (String c EmptyString)) r
          else String c (linkify None r)
      end
  end.

Definition processMessage (text : string) : string := linkify None text.

(** [a || b] on string values. *)
Definition str_or (a b : string) : string :=
  if Text.truthy a then a else b.

Definition opt_truthy (a : option string) : option string :=
  match a with
  | Some s => if Text.truthy s then Some s else None
  | None => None
  end.

Definition voice_room (roomId : RoomId) : string := ("voice_" ++ roomId)%string.

(** [{ ...serverSettings, ...newSettings }] *)
Definition merge (s : ServerSettings) (p : SettingsPatch) : ServerSettings :=
  let pick {A} (o : option A) (d : A) := match o with Some v => v | None => d end in
  mkSettings
    (pick (p_allowHistoryForNewUsers p) (allowHistoryForNewUsers s))
    (pick (p_maxMessageLength p) (maxMessageLength s))
    (pick (p_allowAttachments p) (allowAttachments s))
    (pick (p_allowVoiceChat p) (allowVoiceChat s))
    (pick (p_serverName p) (serverName s))
    (pick (p_ownerId p) (ownerId s)).

Definition set_ownerId (o : option SocketId) (s : ServerSettings) : ServerSettings :=
  mkSettings (allowHistoryForNewUsers s) (maxMessageLength s)
             (allowAttachments s) (allowVoiceChat s) (serverName s) o.

Definition set_settings (x : ServerSettings) (s : State) : State :=
  mkState x (messages s) (users s) (voiceRooms s).
Definition set_messages (x : list Message.t) (s : State) : State :=
  mkState (serverSettings s) x (users s) (voiceRooms s).
Definition set_users (x : JsMap.t User.t) (s : State) : State :=
  mkState (serverSettings s) (messages s) x (voiceRooms s).
Definition set_voiceRooms (x : JsMap.t JsSet.t) (s : State) : State :=
  mkState (serverSettings s) (messages s) (users s) x.

(** [socket.id === serverSettings.ownerId] *)
Definition is_ownerId (sid : SocketId) (s : ServerSettings) : bool :=
  match ownerId s with
  | Some o => String.eqb sid o
  | None => false
  end.

Definition has_id (i : MessageId) (m : Message.t) : bool :=
  String.eqb (Message.id m) i.

(** [msg.userId === socket.id] *)
Definition authored_by (sid : SocketId) (m : Message.t) : bool :=
  match Message.userId m with
  | Some a => String.eqb a sid
  | None => false
  end.

(** ** The handlers *)

Section Handlers.
Variable sid : SocketId.   (* [socket.id] *)
Variable o : Oracle.

(** [io.on('connection', ...)], up to the registration of the handlers. *)
Definition on_connection (s : State) : State * list Emit :=
  match ownerId (serverSettings s) with
  | None =>
      let settings1 := set_ownerId (Some sid) (serverSettings s) in
      (set_settings settings1 s,
       [(ToSocket sid, Out.owner_status true);
        (ToSocket sid, Out.server_settings settings1)])
  | Some _ =>
      (s, [(ToSocket sid, Out.server_settings (serverSettings s))])
  end.

Definition on_user_join (userData : UserData.t) (s : State)
  : State * list Emit :=
  let sanitizedUsername :=
    str_or (sanitizeInput (UserData.username userData)) "Anonymous" in
  let bubble :=
    match opt_truthy (UserData.bubbleColor userData) with
    | Some c => c
    | None => "#007bff"
    end in
  let u := User.mk sid sanitizedUsername bubble
                   (is_ownerId sid (serverSettings s)) (date1 o) in
  let users1 := JsMap.set sid u (users s) in
  let history :=
    if allowHistoryForNewUsers (serverSettings s)
    then [(ToSocket sid, Out.message_history (messages s))]
    else [] in
  let joinMessage :=
    Message.notice (uuid o) (sanitizedUsername ++ " joined the chat")%string
                   (date2 o) in
  (set_messages (messages s ++ [joinMessage]) (set_users users1 s),
   [(ToSocket sid, Out.user_data u)] ++ history ++
   [(ToAll, Out.users_update (JsMap.values users1));
    (ToAll, Out.new_message joinMessage)]).

Definition on_change_username (newUsername : option string) (s : State)
  : State * list Emit :=
  match JsMap.get sid (users s) with
  | Some u =>
      let oldUsername := User.username u in
      let sanitizedUsername := str_or (sanitizeInput newUsername) "Anonymous" in
      let users1 :=
        JsMap.set sid (User.with_username sanitizedUsername u) (users s) in
      let changeMessage :=
        Message.notice (uuid o)
          (oldUsername ++ " changed their name to " ++ sanitizedUsername)%string
          (date1 o) in
      (set_messages (messages s ++ [changeMessage]) (set_users users1 s),
       [(ToAll, Out.new_message changeMessage);
        (ToAll, Out.users_update (JsMap.values users1))])
  | None => (s, [])
  end.

Definition on_change_bubble_color (newColor : string) (s : State)
  : State * list Emit :=
  match JsMap.get sid (users s) with
  | Some u =>
      let users1 := JsMap.set sid (User.with_bubbleColor newColor u) (users s) in
      (set_users users1 s, [(ToAll, Out.users_update (JsMap.values users1))])
  | None => (s, [])
  end.

Definition on_send_message (messageData : MessageData.t) (s : State)
  : State * list Emit :=
  match JsMap.get sid (users s) with
  | None => (s, [])
  | Some u =>
      let sanitizedContent := sanitizeInput (MessageData.content messageData) in
      if negb (Text.truthy sanitizedContent)
         && match MessageData.attachment messageData with
            | None => true
            | Some _ => false
            end
      then (s, [])
      else
        let message :=
          Message.mk (uuid o) MessageType.user (processMessage sanitizedContent)
            (User.username u) (Some sid) (Some (User.bubbleColor u)) (date1 o)
            (Some match MessageData.formatting messageData with
                  | Some f => f
                  | None => "{}"
                  end)
            (MessageData.attachment messageData)
            (opt_truthy (MessageData.replyTo messageData))
            (Some []) false None in
        (set_messages (messages s ++ [message]) s,
         [(ToAll, Out.new_message message)])
  end.

Definition on_edit_message (messageId : MessageId) (newContent : option string)
           (s : State) : State * list Emit :=
  match JsArray.findIndex (has_id messageId) (messages s) with
  | Some messageIndex =>
      match nth_error (messages s) messageIndex with
      | Some m =>
          if authored_by sid m then
            let sanitizedContent := sanitizeInput newContent in
            let c := processMessage sanitizedContent in
            (set_messages
               (JsArray.update messageIndex (Message.with_edit c (date1 o))
                               (messages s)) s,
             [(ToAll, Out.message_edited messageId c true (date1 o))])
          else (s, [])
      | None => (s, [])
      end
  | None => (s, [])
  end.

(** [user?.isOwner], as a condition. *)
Definition actor_isOwner (s : State) : bool :=
  match JsMap.get sid (users s) with
  | Some u => User.isOwner u
  | None => false
  end.

Definition on_delete_message (messageId : MessageId) (s : State)
  : State * list Emit :=
  match JsArray.findIndex (has_id messageId) (messages s) with
  | Some messageIndex =>
      match nth_error (messages s) messageIndex with
      | Some m =>
          if authored_by sid m || actor_isOwner s then
            (set_messages (JsArray.splice1 messageIndex (messages s)) s,
             [(ToAll, Out.message_deleted messageId)])
          else (s, [])
      | None => (s, [])
      end
  | None => (s, [])
  end.
End Handlers.

Section MoreHandlers.
Variable sid : SocketId.
Variable o : Oracle.

Definition on_add_reaction (messageId : MessageId) (emoji : string) (s : State)
  : State * list Emit :=
  match JsArray.findIndex (has_id messageId) (messages s),
        JsMap.get sid (users s) with
  | Some messageIndex, Some u =>
      match nth_error (messages s) messageIndex with
      | Some m =>
          let reactions0 :=
            match Message.reactions m with Some r => r | None => [] end in
          let reactions1 :=
            if JsMap.has emoji reactions0 then reactions0
            else JsMap.set emoji [] reactions0 in
          let reactionUsers :=
            match JsMap.get emoji reactions1 with Some l => l | None => [] end in
          if existsb (String.eqb (User.username u)) reactionUsers then
            (set_messages
               (JsArray.update messageIndex (Message.with_reactions reactions1)
                               (messages s)) s,
             [])
          else
            let reactionUsers1 := reactionUsers ++ [User.username u] in
            (set_messages
               (JsArray.update messageIndex
                  (Message.with_reactions
                     (JsMap.set emoji reactionUsers1 reactions1))
                  (messages s)) s,
             [(ToAll, Out.reaction_added messageId emoji reactionUsers1)])
      | None => (s, [])
      end
  | _, _ => (s, [])
  end.

Definition on_join_voice (roomId : RoomId) (s : State) : State * list Emit :=
  if negb (allowVoiceChat (serverSettings s)) then (s, [])
  else
    match JsMap.get sid (users s) with
    | None => (s, [])
    | Some u =>
        let rooms1 :=
          if JsMap.has roomId (voiceRooms s) then voiceRooms s
          else JsMap.set roomId [] (voiceRooms s) in
        let room :=
          match JsMap.get roomId rooms1 with Some r => r | None => [] end in
        (set_voiceRooms (JsMap.set roomId (JsSet.add sid room) rooms1) s,
         [(ToRoom (voice_room roomId),
           Out.voice_user_joined sid (User.username u))])
    end.

Definition on_leave_voice (roomId : RoomId) (s : State) : State * list Emit :=
  match JsMap.get roomId (voiceRooms s) with
  | Some room =>
      let room1 := JsSet.delete sid room in
      let rooms1 := JsMap.set roomId room1 (voiceRooms s) in
      let rooms2 :=
        if JsSet.size room1 =? 0 then JsMap.delete roomId rooms1 else rooms1 in
      (set_voiceRooms rooms2 s,
       [(ToRoom (voice_room roomId), Out.voice_user_left sid)])
  | None => (s, [])
  end.

Definition on_update_server_settings (newSettings : SettingsPatch) (s : State)
  : State * list Emit :=
  match JsMap.get sid (users s) with
  | Some u =>
      if User.isOwner u then
        let settings1 := merge (serverSettings s) newSettings in
        (set_settings settings1 s, [(ToAll, Out.server_settings settings1)])
      else (s, [])
  | None => (s, [])
  end.

(** The predicate of the [filter] in [search_messages]. *)
Definition search_hit (sanitizedQuery : string) (msg : Message.t) : bool :=
  Text.includes sanitizedQuery (Text.toLowerCase (Message.content msg))
  || Text.includes sanitizedQuery (Text.toLowerCase (Message.username msg)).

Definition on_search_messages (query : option string) (s : State)
  : State * list Emit :=
  let sanitizedQuery := Text.toLowerCase (sanitizeInput query) in
  let results := filter (search_hit sanitizedQuery) (messages s) in
  (s, [(ToSocket sid, Out.search_results results)]).

Definition on_webrtc_offer (target : string) (offer : Opaque) (s : State)
  : State * list Emit :=
  (s, [(ToRoomExcept target sid, Out.webrtc_offer offer sid)]).

Definition on_webrtc_answer (target : string) (answer : Opaque) (s : State)
  : State * list Emit :=
  (s, [(ToRoomExcept target sid, Out.webrtc_answer answer sid)]).

Definition on_webrtc_ice_candidate (target : string) (candidate : Opaque)
           (s : State) : State * list Emit :=
  (s, [(ToRoomExcept target sid, Out.webrtc_ice_candidate candidate sid)]).

(** The [voiceRooms.forEach] of the disconnect handler: the rooms that
    remain and the [voice_user_left] emits, in iteration order. *)
Fixpoint purge (rooms : JsMap.t JsSet.t) : JsMap.t JsSet.t * list Emit :=
  match rooms with
  | [] => ([], [])
  | (roomId, room) :: rest =>
      let (rest1, out) := purge rest in
      if JsSet.has sid room then
        let room1 := JsSet.delete sid room in
        (if JsSet.size room1 =? 0 then rest1 else (roomId, room1) :: rest1,
         (ToRoom (voice_room roomId), Out.voice_user_left sid) :: out)
      else ((roomId, room) :: rest1, out)
  end.

Definition on_disconnect (s : State) : State * list Emit :=
  match JsMap.get sid (users s) with
  | Some u =>
      let users1 := JsMap.delete sid (users s) in
      let (rooms1, out_voice) := purge (voiceRooms s) in
      let leaveMessage :=
        Message.notice (uuid o) (User.username u ++ " left the chat")%string
                       (date1 o) in
      let s1 :=
        mkState (serverSettings s) (messages s ++ [leaveMessage]) users1 rooms1 in
      let out :=
        out_voice ++
        [(ToAll, Out.new_message leaveMessage);
         (ToAll, Out.users_update (JsMap.values users1))] in
      if User.isOwner u && (0 <? List.length users1) then
        match users1 with
        | (k, newOwner) :: rest =>   (* [users.values().next().value] *)
            let settings1 :=
              set_ownerId (Some (User.id newOwner)) (serverSettings s) in
            (mkState settings1 (messages s1)
                     ((k, User.with_isOwner true newOwner) :: rest) rooms1,
             out ++ [(ToRoom (User.id newOwner), Out.owner_status true);
                     (ToAll, Out.server_settings settings1)])
        | [] => (s1, out)
        end
      else (s1, out)
  | None => (s, [])
  end.

Definition handle (ev : Event) (s : State) : State * list Emit :=
  match ev with
  | connection => on_connection sid s
  | user_join userData => on_user_join sid o userData s
  | change_username newUsername => on_change_username sid o newUsername s
  | change_bubble_color newColor => on_change_bubble_color sid newColor s
  | send_message messageData => on_send_message sid o messageData s
  | edit_message messageId newContent =>
      on_edit_message sid o messageId newContent s
  | delete_message messageId => on_delete_message sid messageId s
  | add_reaction messageId emoji => on_add_reaction messageId emoji s
  | join_voice roomId => on_join_voice roomId s
  | leave_voice roomId => on_leave_voice roomId s
  | update_server_settings newSettings =>
      on_update_server_settings newSettings s
  | search_messages query => on_search_messages query s
  | webrtc_offer target offer => on_webrtc_offer target offer s
  | webrtc_answer target answer => on_webrtc_answer target answer s
  | webrtc_ice_candidate target candidate =>
      on_webrtc_ice_candidate target candidate s
  | disconnect => on_disconnect s
  end.
End MoreHandlers.

(** ** Runs *)

(** One event as the server sees it: the socket it arrives on, the
    runtime's values for this invocation, and the event. *)
Record Input := mkInput {
  socket : SocketId;
  oracle : Oracle;
  event : Event
}.

Definition step (s : State) (i : Input) : State :=
  fst (handle (socket i) (oracle i) (event i) s).

Definition run (tr : list Input) (s : State) : State := fold_left step tr s.


(** ** The transport's discipline

    Socket.IO gives every connection a fresh id, runs a socket's handlers
    only between its [connection] and its [disconnect], and [uuidv4()]
    never returns an id twice.  A [World] is the server state together
    with what is needed to say so.  Every invocation is offered a uuid of
    its own; a handler that does not call [uuidv4()] leaves it unused. *)

Record World := mkWorld {
  server : State;
  live : list SocketId;      (* connected sockets *)
  seen : list SocketId;      (* every socket id handed out so far *)
  issued : list MessageId    (* every uuid handed out so far *)
}.

Definition initialWorld : World := mkWorld initialState [] [] [].

Definition mem (x : string) (l : list string) : bool :=
  existsb (String.eqb x) l.

Definition admissible (w : World) (i : Input) : bool :=
  negb (mem (uuid (oracle i)) (issued w))
  && match event i with
     | connection => negb (mem (socket i) (seen w))
     | _ => mem (socket i) (live w)
     end.

Definition deliver (w : World) (i : Input) : option World :=
  if admissible w i then
    Some (mkWorld (step (server w) i)
            match event i with
            | connection => socket i :: live w
            | disconnect => JsSet.delete (socket i) (live w)
            | _ => live w
            end
            match event i with
            | connection => socket i :: seen w
            | _ => seen w
            end
            (uuid (oracle i) :: issued w))
  else None.

Fixpoint deliver_all (tr : list Input) (w : World) : option World :=
  match tr with
  | [] => Some w
  | i :: rest =>
      match deliver w i with
      | Some w1 => deliver_all rest w1
      | None => None
      end
  end.

(** ** Predicates of the statements *)

(** No room of the registry is empty. *)
Definition rooms_nonempty (rooms : JsMap.t JsSet.t) : Prop :=
  forall roomId room, In (roomId, room) rooms -> room <> [].

(** Every member of a voice room is a registered user. *)
Definition members_registered (s : State) : Prop :=
  forall roomId room a,
    In (roomId, room) (voiceRooms s) -> In a room ->
    In a (JsMap.keys (users s)).

(** The registered users whose [isOwner] is set. *)
Definition owners (s : State) : list User.t :=
  filter User.isOwner (JsMap.values (users s)).

(** Does the event go through [update_server_settings] with a patch that
    has an [ownerId] field? *)
Definition patches_ownerId (ev : Event) : bool :=
  match ev with
  | update_server_settings p =>
      match p_ownerId p with Some _ => true | None => false end
  | _ => false
  end.

(** Keys are distinct, a record sits under its own id, and a set
    [isOwner] names the [ownerId] of the settings. *)
Definition owner_inv (s : State) : Prop :=
  NoDup (JsMap.keys (users s))
  /\ forall k u, In (k, u) (users s) ->
       User.id u = k
       /\ (User.isOwner u = true ->
           ownerId (serverSettings s) = Some (User.id u)).

(** What holds of every world the transport can produce: registered users
    are connected, connected sockets have been handed out, an authored
    message names a socket that was handed out and that is registered if it
    is still connected, and message ids are issued uuids, each used once. *)
Definition world_inv (w : World) : Prop :=
  (forall k, In k (JsMap.keys (users (server w))) -> In k (live w))
  /\ (forall k, In k (live w) -> In k (seen w))
  /\ (forall m, In m (messages (server w)) ->
       forall a, Message.userId m = Some a ->
                 In a (seen w)
                 /\ (In a (live w) -> In a (JsMap.keys (users (server w)))))
  /\ (forall m, In m (messages (server w)) -> In (Message.id m) (issued w))
  /\ NoDup (map Message.id (messages (server w))).

(** The events whose handlers do nothing for a socket without a user
    record, and the events the specification lists as valid only once
    joined. *)
Definition silent_without_identity (ev : Event) : bool :=
  match ev with
  | change_username _ | change_bubble_color _ | send_message _
  | edit_message _ _ | delete_message _ | add_reaction _ _
  | join_voice _ | update_server_settings _ => true
  | _ => false
  end.

Definition joined_only (ev : Event) : bool :=
  match ev with
  | connection | user_join _ | disconnect => false
  | _ => true
  end.

(** The condition under which the specification lets [sid] delete the
    message [messageId]: it exists, and [sid] wrote it or is the owner. *)
Definition may_delete (sid : SocketId) (messageId : MessageId) (s : State)
  : Prop :=
  exists m, In m (messages s)
            /\ Message.id m = messageId
            /\ (Message.userId m = Some sid
                \/ exists u, JsMap.get sid (users s) = Some u
                             /\ User.isOwner u = true).

(** The log with the messages of that id taken out, order kept. *)
Definition without_id (messageId : MessageId) (ms : list Message.t)
  : list Message.t :=
  filter (fun m => negb (has_id messageId m)) ms.

(** ** The specification's reading of a search

    The specification words a hit as a case-insensitive substring match
    against the content or the username; [search_hit] above is what the
    code computes. *)

Module SearchSpec.




End SearchSpec.

(** ** Reactions of a message *)

(** [msg.reactions.get(emoji)], with the empty list when there is none. *)
Definition reaction_users (emoji : string) (m : Message.t) : list string :=
  match Message.reactions m with
  | Some r => match JsMap.get emoji r with Some l => l | None => [] end
  | None => []
  end.

(** One entry per emoji, and no username twice under an emoji. *)
Definition reaction_map_ok (r : JsMap.t (list string)) : Prop :=
  NoDup (JsMap.keys r) /\ forall e l, In (e, l) r -> NoDup l.

Definition reactions_distinct (s : State) : Prop :=
  forall m, In m (messages s) ->
  forall r, Message.reactions m = Some r -> reaction_map_ok r.

(** ** Concrete runs

    Sockets "O", "A", "B" and "C"; the clock advances by one at every
    event and the uuid of the n-th event is the numeral n. *)

Definition at_ (t : Z) (i : MessageId) : Oracle := mkOracle t t i.

Definition join_as (name : string) : Event :=
  user_join (UserData.mk (Some name) None).

(** A and B join, B joins a voice room, A leaves: B succeeds A. *)
Definition trace_succession : list Input :=
  [ mkInput "A" (at_ 1 "1") connection;
    mkInput "A" (at_ 2 "2") (join_as "alice");
    mkInput "B" (at_ 3 "3") connection;
    mkInput "B" (at_ 4 "4") (join_as "bob");
    mkInput "B" (at_ 5 "5") (join_voice "r1");
    mkInput "A" (at_ 6 "6") disconnect ].

(** The owner A patches [ownerId] to B's id before B joins. *)
Definition trace_two_owners : list Input :=
  [ mkInput "A" (at_ 1 "1") connection;
    mkInput "A" (at_ 2 "2") (join_as "alice");
    mkInput "B" (at_ 3 "3") connection;
    mkInput "A" (at_ 4 "4")
      (update_server_settings
         (mkPatch None None None None None (Some (Some "B"))));
    mkInput "B" (at_ 5 "5") (join_as "bob") ].

(** The only user joins and leaves. *)
Definition trace_stale_owner : list Input :=
  [ mkInput "A" (at_ 1 "1") connection;
    mkInput "A" (at_ 2 "2") (join_as "alice");
    mkInput "A" (at_ 3 "3") disconnect ].

(** O, A and B join in that order; then A joins again. *)
Definition trace_rejoin : list Input :=
  [ mkInput "O" (at_ 1 "1") connection;
    mkInput "O" (at_ 2 "2") (join_as "olga");
    mkInput "A" (at_ 3 "3") connection;
    mkInput "A" (at_ 4 "4") (join_as "alice");
    mkInput "B" (at_ 5 "5") connection;
    mkInput "B" (at_ 6 "6") (join_as "bob");
    mkInput "A" (at_ 7 "7") (join_as "alice") ].

(** A joins and sends a message, which gets the id "3". *)
Definition trace_message : list Input :=
  [ mkInput "A" (at_ 1 "1") connection;
    mkInput "A" (at_ 2 "2") (join_as "alice");
    mkInput "A" (at_ 3 "3")
      (send_message (MessageData.mk (Some "hello") None None None)) ].

(** A joins, enters the voice room "r1" and sends a message; C connects
    and does not join. *)
Definition trace_lurker : list Input :=
  [ mkInput "A" (at_ 1 "1") connection;
    mkInput "A" (at_ 2 "2") (join_as "alice");
    mkInput "A" (at_ 3 "3") (join_voice "r1");
    mkInput "C" (at_ 4 "4") connection;
    mkInput "A" (at_ 5 "5")
      (send_message (MessageData.mk (Some "hello") None None None)) ].

Definition world_lurker : World :=
  Eval vm_compute in
    match deliver_all trace_lurker initialWorld with
    | Some w => w
    | None => initialWorld
    end.

(** A, the owner, and B join; B sends a message, which gets the id "5". *)
Definition trace_moderation : list Input :=
  [ mkInput "A" (at_ 1 "1") connection;
    mkInput "A" (at_ 2 "2") (join_as "alice");
    mkInput "B" (at_ 3 "3") connection;
    mkInput "B" (at_ 4 "4") (join_as "bob");
    mkInput "B" (at_ 5 "5")
      (send_message (MessageData.mk (Some "hello") None None None)) ].

Definition world_moderation : World :=
  Eval vm_compute in
    match deliver_all trace_moderation initialWorld with
    | Some w => w
    | None => initialWorld
    end.

Definition before_succession : State :=
  run (removelast trace_succession) initialState.

Definition after_succession : State := run trace_succession initialState.

Definition patch_nobody : SettingsPatch :=
  mkPatch None None None None None (Some (Some "nobody")).

(** ** The upload filter

    [fileFilter] of the multer configuration.  [allowedTypes] is an
    alternation of literal words without anchors, so [allowedTypes.test(x)]
    holds when one of the words occurs in [x].  [path.extname] belongs to
    Node and is a parameter; the arguments are [file.originalname] and
    [file.mimetype]; the result is [cb(null, true)] ([inl]) or the error
    message ([inr]). *)

Definition allowedTypes : list string :=
  ["jpeg"; "jpg"; "png"; "gif"; "mp4"; "mov"; "avi"; "pdf"; "doc"; "docx"; "txt"].

Definition allowedTypes_test (x : string) : bool :=
  existsb (fun w => Text.includes w x) allowedTypes.

Section Upload.
Variable path_extname : string -> string.

Definition fileFilter (originalname mimetype_ : string) : unit + string :=
  let extname :=
    allowedTypes_test (Text.toLowerCase (path_extname originalname)) in
  let mimetype := allowedTypes_test mimetype_ in
  if mimetype && extname then inl tt else inr "Invalid file type".
End Upload.

(** [path.extname] at the one name used in the example below:
    [path.extname('photo.png')] is ['.png']. *)
Definition extname_of_photo (name : string) : string :=
  if String.eqb name "photo.png" then ".png" else "".

(** The white space and line terminator code units below 256, by number. *)
Definition white_space_codes : list nat := [9; 10; 11; 12; 13; 32; 160].

Definition no_white_space (s : string) : Prop :=
  forall c, In c (list_ascii_of_string s) ->
            ~ In (nat_of_ascii c) white_space_codes.

(** ** Shapes of text *)

Fixpoint has_char (p : ascii -> bool) (s : string) : bool :=
  match s with
  | EmptyString => false
  | String c r => p c || has_char p r
  end.

Definition is_angle (c : ascii) : bool :=
  Ascii.eqb c "<"%char || Ascii.eqb c ">"%char.

Definition starts_with_space (s : string) : bool :=
  match s with
  | EmptyString => false
  | String c _ => Text.is_space c
  end.

Fixpoint ends_with_space (s : string) : bool :=
  match s with
  | EmptyString => false
  | String c EmptyString => Text.is_space c
  | String _ r => ends_with_space r
  end.

(** What [sanitizeInput] leaves: no angle bracket, no white space at
    either end. *)
Definition sanitized (s : string) : Prop :=
  has_char is_angle s = false
  /\ starts_with_space s = false
  /\ ends_with_space s = false.

(** ** More predicates of the statements *)

(** Keys of [users] are distinct and a record sits under its own id. *)
Definition users_keyed (s : State) : Prop :=
  NoDup (JsMap.keys (users s))
  /\ forall k u, In (k, u) (users s) -> User.id u = k.

(** Every registered username is non-empty and sanitized. *)
Definition usernames_ok (s : State) : Prop :=
  forall k u, In (k, u) (users s) ->
    User.username u <> "" /\ sanitized (User.username u).

(** The settings with [maxMessageLength] and [allowAttachments] replaced. *)
Definition with_limits (len : Z) (att : bool) (s : State) : State :=
  set_settings
    (mkSettings (allowHistoryForNewUsers (serverSettings s)) len att
                (allowVoiceChat (serverSettings s))
                (serverName (serverSettings s))
                (ownerId (serverSettings s))) s.

(** [ownerId] names a socket that was connected and is gone, and no
    registered user has [isOwner] set. *)
Definition ownerless (w : World) (o : SocketId) : Prop :=
  ownerId (serverSettings (server w)) = Some o
  /\ In o (seen w)
  /\ ~ In o (live w)
  /\ owners (server w) = [].

(** The edit of the handler, applied to the messages of that id. *)
Definition edit_where (messageId : MessageId) (c : string) (t : Timestamp)
           (ms : list Message.t) : list Message.t :=
  map (fun m => if has_id messageId m then Message.with_edit c t m else m) ms.

(** Two users who both joined without a name, and one message. *)
Definition trace_namesakes : list Input :=
  [ mkInput "A" (at_ 1 "1") connection;
    mkInput "A" (at_ 2 "2") (user_join (UserData.mk None None));
    mkInput "B" (at_ 3 "3") connection;
    mkInput "B" (at_ 4 "4") (user_join (UserData.mk (Some " <> ") None));
    mkInput "A" (at_ 5 "5")
      (send_message (MessageData.mk (Some "hello") None None None)) ].

(** After the only user left: B connects, joins and asks for new settings. *)
Definition trace_after_owner_left : list Input :=
  [ mkInput "B" (at_ 4 "4") connection;
    mkInput "B" (at_ 5 "5") (user_join (UserData.mk (Some "bob") None));
    mkInput "B" (at_ 6 "6")
      (update_server_settings
         (mkPatch None None None None (Some "Mine") None)) ].

Definition world_stale_owner : World :=
  Eval vm_compute in
    match deliver_all trace_stale_owner initialWorld with
    | Some w => w
    | None => initialWorld
    end.

(** * Properties *)

Unset Implicit Arguments.

(** Case analysis on whatever the goal still matches on. *)
Ltac break_match :=
  match goal with
  | |- context [match ?x with _ => _ end] => destruct x eqn:?
  end.

Ltac unfold_handlers :=
  unfold handle, on_connection, on_user_join, on_change_username,
    on_change_bubble_color, on_send_message, on_edit_message,
    on_delete_message, on_add_reaction, on_join_voice, on_leave_voice,
    on_update_server_settings, on_search_messages, on_webrtc_offer,
    on_webrtc_answer, on_webrtc_ice_candidate, on_disconnect.

(** ** The utility functions on examples *)

Example sanitizeInput_strips_and_trims :
  sanitizeInput (Some "  <b>he llo</b> ") = "bhe llo/b".
Proof. reflexivity. Qed.

Example sanitizeInput_of_non_string : sanitizeInput None = "".
Proof. reflexivity. Qed.

Example processMessage_wraps_urls :
  processMessage "hi http://x.com and https://y.org/a?b=1"
  = ("hi " ++ anchor "http://x.com" ++ " and " ++ anchor "https://y.org/a?b=1")%string.
Proof. reflexivity. Qed.

Example processMessage_needs_a_host :
  processMessage "see https:// or http://" = "see https:// or http://".
Proof. reflexivity. Qed.

Example search_hit_ignores_case :
  search_hit (Text.toLowerCase (sanitizeInput (Some " HELLO ")))
             (Message.notice "1" "Oh, hello there" 0%Z)
  = true.
Proof. reflexivity. Qed.

(** Code units 201 and 233 are the capital and the small e with acute
    accent, 160 is the no-break space. *)

Example toLowerCase_beyond_ascii :
  Text.toLowerCase ("CAF" ++ String "201"%char "")
  = ("caf" ++ String "233"%char "")%string.
Proof. reflexivity. Qed.

Example search_hit_beyond_ascii :
  search_hit (Text.toLowerCase
                (sanitizeInput (Some ("CAF" ++ String "201"%char "")%string)))
             (Message.notice "1" ("un caf" ++ String "233"%char "")%string 0%Z)
  = true.
Proof. reflexivity. Qed.

Example sanitizeInput_trims_no_break_space :
  sanitizeInput (Some (String "160"%char "hi" ++ String "160"%char "")%string)
  = "hi".
Proof. reflexivity. Qed.

Example processMessage_stops_at_no_break_space :
  processMessage ("http://a" ++ String "160"%char "b")%string
  = (anchor "http://a" ++ String "160"%char "b")%string.
Proof. reflexivity. Qed.

(** ** Maps, sets and arrays *)

Lemma mem_In : forall x l, mem x l = true <-> In x l.
Proof.
  intros x l; unfold mem; rewrite existsb_exists; split.
  - intros [y [Hy E]]; apply String.eqb_eq in E; now subst.
  - intros H; exists x; split; [assumption | apply String.eqb_refl].
Qed.

Lemma mem_false : forall x l, mem x l = false <-> ~ In x l.
Proof.
  intros x l; rewrite <- mem_In; destruct (mem x l); split; congruence.
Qed.

Section JsMapFacts.
Variable V : Type.
Implicit Types (m : JsMap.t V) (k : string) (v : V).

Lemma get_In : forall m k v, JsMap.get k m = Some v -> In (k, v) m.
Proof.
  induction m as [|[k' v'] r IH]; simpl; intros k v H; [discriminate|].
  destruct (String.eqb_spec k k') as [->|N].
  - injection H as ->; now left.
  - right; now apply IH.
Qed.

Lemma get_None : forall m k, JsMap.get k m = None <-> ~ In k (JsMap.keys m).
Proof.
  induction m as [|[k' v'] r IH]; simpl; intros k.
  - tauto.
  - destruct (String.eqb_spec k k') as [->|N].
    + split; [discriminate | intros H; exfalso; apply H; now left].
    + rewrite IH; unfold JsMap.keys; split; intros H.
      * intros [E|I]; [now apply N | now apply H].
      * intros I; apply H; now right.
Qed.

Lemma get_Some_key : forall m k v, JsMap.get k m = Some v -> In k (JsMap.keys m).
Proof.
  intros m k v H; apply get_In in H.
  unfold JsMap.keys; apply in_map_iff; now exists (k, v).
Qed.

Lemma In_get : forall m k v,
    NoDup (JsMap.keys m) -> In (k, v) m -> JsMap.get k m = Some v.
Proof.
  induction m as [|[k' v'] r IH]; simpl; intros k v ND H; [contradiction|].
  inversion ND as [|? ? Hn ND']; subst.
  destruct H as [E|H].
  - injection E as -> ->; now rewrite String.eqb_refl.
  - destruct (String.eqb_spec k k') as [->|N]; [|now apply IH].
    exfalso; apply Hn; unfold JsMap.keys.
    apply in_map_iff; now exists (k', v).
Qed.

Lemma get_set_same : forall m k v, JsMap.get k (JsMap.set k v m) = Some v.
Proof.
  induction m as [|[k' v'] r IH]; simpl; intros k v.
  - now rewrite String.eqb_refl.
  - destruct (String.eqb_spec k k') as [->|N]; simpl.
    + now rewrite String.eqb_refl.
    + destruct (String.eqb_spec k k'); [contradiction | apply IH].
Qed.

Lemma get_set_other : forall m k k' v,
    k' <> k -> JsMap.get k' (JsMap.set k v m) = JsMap.get k' m.
Proof.
  induction m as [|[k0 v0] r IH]; simpl; intros k k' v N.
  - destruct (String.eqb_spec k' k); [contradiction | reflexivity].
  - destruct (String.eqb_spec k k0) as [->|N0]; simpl.
    + destruct (String.eqb_spec k' k0); [contradiction | reflexivity].
    + destruct (String.eqb_spec k' k0); [reflexivity | now apply IH].
Qed.

Lemma set_same : forall m k v, JsMap.get k m = Some v -> JsMap.set k v m = m.
Proof.
  induction m as [|[k' v'] r IH]; simpl; intros k v H; [discriminate|].
  destruct (String.eqb_spec k k') as [->|N].
  - now injection H as ->.
  - f_equal; now apply IH.
Qed.

Lemma keys_set : forall m k v,
    JsMap.keys (JsMap.set k v m)
    = if JsMap.has k m then JsMap.keys m else JsMap.keys m ++ [k].
Proof.
  unfold JsMap.has.
  induction m as [|[k' v'] r IH]; simpl; intros k v; [reflexivity|].
  destruct (String.eqb_spec k k') as [->|N]; simpl; [reflexivity|].
  rewrite IH; now destruct (JsMap.get k r).
Qed.

Lemma In_keys_set : forall m k v k',
    In k' (JsMap.keys (JsMap.set k v m)) <-> k' = k \/ In k' (JsMap.keys m).
Proof.
  intros m k v k'; rewrite keys_set; unfold JsMap.has.
  destruct (JsMap.get k m) eqn:G.
  - apply get_Some_key in G; split; [tauto | intros [->|H]; assumption].
  - rewrite in_app_iff; simpl; split; intros H.
    + destruct H as [H|[H|[]]]; [now right | now left].
    + destruct H as [->|H]; [right; now left | now left].
Qed.

Lemma NoDup_keys_set : forall m k v,
    NoDup (JsMap.keys m) -> NoDup (JsMap.keys (JsMap.set k v m)).
Proof.
  intros m k v ND; rewrite keys_set; unfold JsMap.has.
  destruct (JsMap.get k m) eqn:G; [assumption|].
  apply get_None in G.
  apply NoDup_app; [assumption | repeat constructor; intros [] | ].
  intros x Hx [<-|[]]; contradiction.
Qed.

Lemma In_set : forall m k v k' v',
    In (k', v') (JsMap.set k v m) -> (k' = k /\ v' = v) \/ In (k', v') m.
Proof.
  induction m as [|[k0 v0] r IH]; simpl; intros k v k' v' H.
  - destruct H as [E|[]]; injection E as <- <-; now left.
  - destruct (String.eqb_spec k k0) as [->|N]; simpl in H.
    + destruct H as [E|H]; [injection E as <- <-; now left | right; now right].
    + destruct H as [E|H]; [right; now left|].
      apply IH in H; destruct H as [H|H]; [now left | right; now right].
Qed.

Lemma In_delete : forall m k k' v',
    In (k', v') (JsMap.delete k m) <-> In (k', v') m /\ k' <> k.
Proof.
  induction m as [|[k0 v0] r IH]; simpl; intros k k' v'; [tauto|].
  destruct (String.eqb_spec k k0) as [->|N]; simpl; rewrite IH.
  - split; [tauto|]. intros [[E|H] Hn]; [|tauto].
    injection E as <- _; contradiction.
  - split; [|tauto]. intros [E|H]; [|tauto].
    injection E as <- <-; split; [now left | congruence].
Qed.

Lemma In_keys_delete : forall m k k',
    In k' (JsMap.keys (JsMap.delete k m)) <-> In k' (JsMap.keys m) /\ k' <> k.
Proof.
  intros m k k'; unfold JsMap.keys; rewrite !in_map_iff; split.
  - intros [[a b] [E H]]; simpl in E; subst a.
    apply In_delete in H; destruct H as [H N]; split; [|assumption].
    now exists (k', b).
  - intros [[[a b] [E H]] N]; simpl in E; subst a.
    exists (k', b); split; [reflexivity | now apply In_delete].
Qed.

Lemma NoDup_keys_delete : forall m k,
    NoDup (JsMap.keys m) -> NoDup (JsMap.keys (JsMap.delete k m)).
Proof.
  induction m as [|[k0 v0] r IH]; simpl; intros k ND; [constructor|].
  inversion ND as [|? ? Hn ND']; subst.
  destruct (String.eqb_spec k k0) as [->|N]; simpl; [now apply IH|].
  constructor; [|now apply IH].
  intros H; apply In_keys_delete in H; now apply Hn.
Qed.

Lemma get_delete_same : forall m k, JsMap.get k (JsMap.delete k m) = None.
Proof.
  intros m k; apply get_None; rewrite In_keys_delete; tauto.
Qed.
End JsMapFacts.

Lemma JsSet_has_In : forall x s, JsSet.has x s = true <-> In x s.
Proof. exact mem_In. Qed.

Lemma JsSet_delete_absent : forall x s, JsSet.has x s = false -> JsSet.delete x s = s.
Proof.
  intros x s; unfold JsSet.has, JsSet.delete.
  induction s as [|y r IH]; simpl; [reflexivity|].
  destruct (String.eqb x y); simpl; [discriminate|].
  intros H; f_equal; now apply IH.
Qed.

Lemma JsSet_In_delete : forall x y s, In y (JsSet.delete x s) <-> In y s /\ y <> x.
Proof.
  intros x y s; unfold JsSet.delete; rewrite filter_In.
  destruct (String.eqb_spec x y) as [->|N]; simpl; split;
    try tauto; try (intros [_ H]; discriminate); intros [H N']; 
    split; try assumption; try reflexivity; congruence.
Qed.

Lemma JsSet_add_nonempty : forall x s, JsSet.add x s <> [].
Proof.
  intros x s; unfold JsSet.add.
  destruct (JsSet.has x s) eqn:H.
  - apply JsSet_has_In in H; destruct s; [contradiction | discriminate].
  - destruct s; discriminate.
Qed.

Lemma JsSet_In_add : forall x y s, In y (JsSet.add x s) <-> y = x \/ In y s.
Proof.
  intros x y s; unfold JsSet.add.
  destruct (JsSet.has x s) eqn:H.
  - apply JsSet_has_In in H; split; [tauto | intros [->|I]; assumption].
  - rewrite in_app_iff; simpl; split; intros I.
    + destruct I as [I|[I|[]]]; [now right | now left].
    + destruct I as [->|I]; [right; now left | now left].
Qed.

Lemma size_zero : forall s : JsSet.t, (JsSet.size s =? 0) = true <-> s = [].
Proof.
  intros [|x r]; simpl; split; congruence.
Qed.

Section JsArrayFacts.
Variable A : Type.
Implicit Types (a : list A) (p : A -> bool).

Lemma findIndex_Some : forall p a i,
    JsArray.findIndex p a = Some i ->
    exists x, nth_error a i = Some x /\ p x = true.
Proof.
  induction a as [|x r IH]; simpl; intros i H; [discriminate|].
  destruct (p x) eqn:Px.
  - injection H as <-; now exists x.
  - destruct (JsArray.findIndex p r) as [j|] eqn:F; [|discriminate].
    injection H as <-; simpl; now apply IH.
Qed.

Lemma findIndex_None : forall p a,
    JsArray.findIndex p a = None <-> forall x, In x a -> p x = false.
Proof.
  induction a as [|x r IH]; simpl.
  - split; [intros _ y [] | reflexivity].
  - destruct (p x) eqn:Px.
    + split; [discriminate|]. intros H; specialize (H x (or_introl eq_refl)).
      congruence.
    + destruct (JsArray.findIndex p r) eqn:F.
      * split; [discriminate|]. intros H.
        assert (N : Some n = None) by (apply IH; intros y Hy; apply H; now right).
        discriminate.
      * split; [|reflexivity]. intros _ y [<-|Hy]; [assumption|].
        now apply (proj1 IH).
Qed.

Lemma findIndex_exists : forall p a x,
    In x a -> p x = true -> exists i, JsArray.findIndex p a = Some i.
Proof.
  intros p a x Hx Px.
  destruct (JsArray.findIndex p a) as [i|] eqn:F; [now exists i|].
  rewrite findIndex_None in F; specialize (F x Hx); congruence.
Qed.

Lemma update_fixed : forall (f : A -> A) a i x,
    nth_error a i = Some x -> f x = x -> JsArray.update i f a = a.
Proof.
  induction a as [|y r IH]; intros [|i] x H E; simpl in *; try discriminate.
  - injection H as ->; now rewrite E.
  - f_equal; now apply IH with x.
Qed.

Lemma nth_error_update : forall (f : A -> A) a i,
    nth_error (JsArray.update i f a) i = option_map f (nth_error a i).
Proof.
  induction a as [|y r IH]; intros [|i]; simpl; try reflexivity; apply IH.
Qed.

Lemma In_update : forall (f : A -> A) a i y,
    In y (JsArray.update i f a) ->
    In y a \/ exists x, nth_error a i = Some x /\ y = f x.
Proof.
  induction a as [|z r IH]; intros [|i] y H; simpl in *; try contradiction.
  - destruct H as [<-|H]; [right; now exists z | left; now right].
  - destruct H as [<-|H]; [left; now left|].
    apply IH in H; destruct H as [H|H]; [left; now right | now right].
Qed.

Lemma map_update : forall B (g : A -> B) (f : A -> A) a i,
    (forall x, g (f x) = g x) -> map g (JsArray.update i f a) = map g a.
Proof.
  induction a as [|z r IH]; intros [|i] E; simpl; try reflexivity.
  - now rewrite E.
  - now rewrite IH.
Qed.

Lemma In_splice1 : forall a i y, In y (JsArray.splice1 i a) -> In y a.
Proof.
  induction a as [|z r IH]; intros [|i] y H; simpl in *; try contradiction.
  - now right.
  - destruct H as [<-|H]; [now left | right; now apply IH with i].
Qed.
End JsArrayFacts.

(** An invariant of every handler, from a state that has it, holds after
    every run. *)
Lemma run_invariant (P : State -> Prop) :
  (forall sid o ev s, P s -> P (fst (handle sid o ev s))) ->
  forall tr s, P s -> P (run tr s).
Proof.
  intros Hstep tr; induction tr as [|i r IH]; intros s Hs; simpl; [assumption|].
  apply IH; unfold step; now apply Hstep.
Qed.

(** ** Voice rooms *)

Lemma purge_In : forall sid rooms roomId room1,
    In (roomId, room1) (fst (purge sid rooms)) ->
    exists room, In (roomId, room) rooms
                 /\ (room <> [] -> room1 <> [])
                 /\ forall a, In a room1 -> In a room /\ a <> sid.
Proof.
  induction rooms as [|[rid room] rest IH]; simpl; intros roomId room1 H;
    [contradiction|].
  destruct (purge sid rest) as [rest1 out] eqn:P; simpl in IH.
  assert (Tail : In (roomId, room1) rest1 ->
                 exists room0, ((rid, room) = (roomId, room0) \/ In (roomId, room0) rest)
                               /\ (room0 <> [] -> room1 <> [])
                               /\ forall a, In a room1 -> In a room0 /\ a <> sid).
  { intros I; destruct (IH _ _ I) as [room0 [I0 R]]; exists room0; tauto. }
  destruct (JsSet.has sid room) eqn:Hs; simpl in H.
  - destruct (JsSet.size (JsSet.delete sid room) =? 0) eqn:Z.
    + now apply Tail.
    + destruct H as [E|H]; [|now apply Tail].
      injection E as <- <-; exists room; split; [now left|]; split.
      * intros _ E; apply size_zero in E; congruence.
      * intros a Ia; now apply JsSet_In_delete.
  - destruct H as [E|H]; [|now apply Tail].
    injection E as <- <-; exists room; split; [now left|]; split; [tauto|].
    intros a Ia; split; [assumption|].
    intros ->; apply JsSet_has_In in Ia; congruence.
Qed.

Lemma voiceRooms_frame : forall sid o ev s,
    match ev with
    | join_voice _ | leave_voice _ | disconnect => False
    | _ => True
    end ->
    voiceRooms (fst (handle sid o ev s)) = voiceRooms s.
Proof.
  intros sid o ev s; destruct ev; simpl; try contradiction; intros _;
    unfold_handlers; repeat break_match; reflexivity.
Qed.

Lemma users_frame : forall sid o ev s,
    match ev with
    | user_join _ | change_username _ | change_bubble_color _ | disconnect => False
    | _ => True
    end ->
    users (fst (handle sid o ev s)) = users s.
Proof.
  intros sid o ev s; destruct ev; simpl; try contradiction; intros _;
    unfold_handlers; repeat break_match; reflexivity.
Qed.

Lemma messages_frame : forall sid o ev s,
    match ev with
    | connection | change_bubble_color _ | join_voice _ | leave_voice _
    | update_server_settings _ | search_messages _ | webrtc_offer _ _
    | webrtc_answer _ _ | webrtc_ice_candidate _ _ => True
    | _ => False
    end ->
    messages (fst (handle sid o ev s)) = messages s.
Proof.
  intros sid o ev s; destruct ev; simpl; try contradiction; intros _;
    unfold_handlers; repeat break_match; reflexivity.
Qed.

Lemma settings_frame : forall sid o ev s,
    match ev with
    | connection | update_server_settings _ | disconnect => False
    | _ => True
    end ->
    serverSettings (fst (handle sid o ev s)) = serverSettings s.
Proof.
  intros sid o ev s; destruct ev; simpl; try contradiction; intros _;
    unfold_handlers; repeat break_match; reflexivity.
Qed.

Lemma set_set : forall V (m : JsMap.t V) k v v',
    JsMap.set k v' (JsMap.set k v m) = JsMap.set k v' m.
Proof.
  induction m as [|[k0 v0] r IH]; simpl; intros k v v'.
  - now rewrite String.eqb_refl.
  - destruct (String.eqb_spec k k0) as [->|N]; simpl.
    + now rewrite String.eqb_refl.
    + destruct (String.eqb_spec k k0); [contradiction | now rewrite IH].
Qed.

(** The two steps of [join_voice] on the registry amount to one [set]. *)
Lemma join_voice_rooms : forall sid roomId (rooms : JsMap.t JsSet.t),
    let rooms1 := if JsMap.has roomId rooms then rooms
                  else JsMap.set roomId [] rooms in
    let room := match JsMap.get roomId rooms1 with Some r => r | None => [] end in
    JsMap.set roomId (JsSet.add sid room) rooms1
    = JsMap.set roomId
        (JsSet.add sid match JsMap.get roomId rooms with
                       | Some r => r
                       | None => []
                       end) rooms.
Proof.
  intros sid roomId rooms; unfold JsMap.has; simpl.
  destruct (JsMap.get roomId rooms) eqn:G; [now rewrite G|].
  now rewrite get_set_same, set_set.
Qed.

Lemma on_join_voice_rooms : forall sid roomId s,
    voiceRooms (fst (on_join_voice sid roomId s)) = voiceRooms s
    \/ (In sid (JsMap.keys (users s))
        /\ voiceRooms (fst (on_join_voice sid roomId s))
           = JsMap.set roomId
               (JsSet.add sid match JsMap.get roomId (voiceRooms s) with
                              | Some r => r
                              | None => []
                              end) (voiceRooms s)).
Proof.
  intros sid roomId s; unfold on_join_voice.
  destruct (negb (allowVoiceChat (serverSettings s))); [now left|].
  destruct (JsMap.get sid (users s)) eqn:G; [|now left].
  right; split; [now apply get_Some_key in G|].
  simpl; apply join_voice_rooms.
Qed.

Lemma on_leave_voice_rooms : forall sid roomId s k v,
    In (k, v) (voiceRooms (fst (on_leave_voice sid roomId s))) ->
    (v <> [] /\ exists room, In (k, room) (voiceRooms s)
                             /\ (forall a, In a v -> In a room))
    \/ In (k, v) (voiceRooms s).
Proof.
  intros sid roomId s k v; unfold on_leave_voice.
  destruct (JsMap.get roomId (voiceRooms s)) as [room|] eqn:G; simpl; [|now right].
  destruct (JsSet.size (JsSet.delete sid room) =? 0) eqn:Z; intros H.
  - apply In_delete in H; destruct H as [H N].
    apply In_set in H; destruct H as [[E _]|H]; [contradiction | now right].
  - apply In_set in H; destruct H as [[-> ->]|H]; [left | now right].
    split; [intros E; apply size_zero in E; congruence|].
    exists room; split; [now apply get_In|].
    intros a Ia; now apply JsSet_In_delete in Ia.
Qed.

Lemma on_disconnect_shape : forall sid o s,
    on_disconnect sid o s = (s, [])
    \/ exists u, JsMap.get sid (users s) = Some u
       /\ voiceRooms (fst (on_disconnect sid o s)) = fst (purge sid (voiceRooms s))
       /\ JsMap.keys (users (fst (on_disconnect sid o s)))
          = JsMap.keys (JsMap.delete sid (users s)).
Proof.
  intros sid o s; unfold on_disconnect.
  destruct (JsMap.get sid (users s)) as [u|] eqn:G; [right; exists u | now left].
  split; [reflexivity|].
  destruct (purge sid (voiceRooms s)) as [rooms1 out]; simpl.
  destruct (User.isOwner u && (0 <? List.length (JsMap.delete sid (users s))));
    [|now split].
  destruct (JsMap.delete sid (users s)) as [|[k v] rest]; now split.
Qed.

Lemma rooms_nonempty_handle : forall sid o ev s,
    rooms_nonempty (voiceRooms s) ->
    rooms_nonempty (voiceRooms (fst (handle sid o ev s))).
Proof.
  intros sid o ev s Inv.
  destruct ev; try (rewrite voiceRooms_frame by exact I; assumption); simpl.
  - destruct (on_join_voice_rooms sid roomId s) as [E|[_ E]]; rewrite E;
      [assumption|].
    intros k v H; apply In_set in H; destruct H as [[_ ->]|H].
    + apply JsSet_add_nonempty.
    + now apply Inv with k.
  - intros k v H; apply on_leave_voice_rooms in H.
    destruct H as [[H _]|H]; [assumption | now apply Inv with k].
  - destruct (on_disconnect_shape sid o s) as [E|[u [_ [E _]]]]; rewrite E;
      [assumption|].
    intros k v H; apply purge_In in H; destruct H as [room [I0 [N _]]].
    apply N; now apply Inv with k.
Qed.

Lemma keys_handle_grow : forall sid o ev s k,
    ev <> disconnect ->
    In k (JsMap.keys (users s)) ->
    In k (JsMap.keys (users (fst (handle sid o ev s)))).
Proof.
  intros sid o ev s k Nd Hk.
  destruct ev; try (rewrite users_frame by exact I; assumption);
    try congruence; simpl; unfold_handlers; repeat break_match; simpl;
    try assumption; apply In_keys_set; now right.
Qed.

Lemma members_registered_handle : forall sid o ev s,
    members_registered s -> members_registered (fst (handle sid o ev s)).
Proof.
  intros sid o ev s Inv roomId room a Hr Ha.
  destruct ev;
    try (rewrite voiceRooms_frame in Hr by exact I;
         apply keys_handle_grow; [discriminate | now apply Inv with roomId room]).
  - (* join_voice *)
    rewrite users_frame by exact I; simpl in Hr.
    destruct (on_join_voice_rooms sid roomId0 s) as [E|[Hu E]]; rewrite E in Hr;
      [now apply Inv with roomId room|].
    apply In_set in Hr; destruct Hr as [[_ ->]|Hr];
      [|now apply Inv with roomId room].
    apply JsSet_In_add in Ha; destruct Ha as [->|Ha]; [assumption|].
    destruct (JsMap.get roomId0 (voiceRooms s)) as [r|] eqn:G; [|contradiction].
    apply get_In in G; now apply Inv with roomId0 r.
  - (* leave_voice *)
    rewrite users_frame by exact I; simpl in Hr.
    apply on_leave_voice_rooms in Hr.
    destruct Hr as [[_ [room0 [I0 Sub]]]|Hr];
      [apply Inv with roomId room0; auto | now apply Inv with roomId room].
  - (* disconnect *)
    simpl in *.
    destruct (on_disconnect_shape sid o s) as [E|[u [_ [E K]]]].
    + rewrite E in *; now apply Inv with roomId room.
    + rewrite E in Hr; rewrite K.
      apply purge_In in Hr; destruct Hr as [room0 [I0 [_ Sub]]].
      destruct (Sub a Ha) as [Ia Na].
      apply In_keys_delete; split; [now apply Inv with roomId room0 | assumption].
Qed.

(** ** Ownership *)

Lemma owner_inv_set : forall s sid u,
    owner_inv s ->
    User.id u = sid ->
    (User.isOwner u = true -> ownerId (serverSettings s) = Some sid) ->
    owner_inv (set_users (JsMap.set sid u (users s)) s).
Proof.
  intros s sid u [ND Inv] Hid Ho; split; simpl.
  - now apply NoDup_keys_set.
  - intros k u' H; apply In_set in H; destruct H as [[-> ->]|H].
    + split; [assumption | rewrite Hid; assumption].
    + now apply Inv.
Qed.

Lemma owner_inv_messages : forall s ms,
    owner_inv s -> owner_inv (set_messages ms s).
Proof. intros s ms H; exact H. Qed.

Lemma owner_inv_handle : forall sid o ev s,
    patches_ownerId ev = false ->
    owner_inv s -> owner_inv (fst (handle sid o ev s)).
Proof.
  intros sid o ev s Hp Inv.
  assert (Frame : forall s', users s' = users s ->
                             serverSettings s' = serverSettings s ->
                             owner_inv s').
  { intros s' Eu Es; unfold owner_inv; rewrite Eu, Es; exact Inv. }
  destruct ev;
    try (apply Frame; [apply users_frame | apply settings_frame]; exact I);
    simpl.
  - (* connection *)
    unfold on_connection.
    destruct (ownerId (serverSettings s)) eqn:O; [assumption|].
    destruct Inv as [ND Inv]; split; [assumption|]; simpl.
    intros k u H; destruct (Inv k u H) as [Hid Ho]; split; [assumption|].
    intros B; rewrite O in Ho; specialize (Ho B); discriminate.
  - (* user_join *)
    unfold on_user_join; simpl.
    apply (owner_inv_messages
             (set_users (JsMap.set sid _ (users s)) s)).
    apply owner_inv_set; [assumption | reflexivity|]; simpl.
    unfold is_ownerId; destruct (ownerId (serverSettings s)) as [w|];
      [|discriminate].
    intros E; apply String.eqb_eq in E; now subst.
  - (* change_username *)
    unfold on_change_username.
    destruct (JsMap.get sid (users s)) as [u|] eqn:G; [|assumption]; simpl.
    apply get_In in G; destruct (proj2 Inv _ _ G) as [Hid Ho].
    apply (owner_inv_messages
             (set_users (JsMap.set sid _ (users s)) s)).
    apply owner_inv_set; [assumption | exact Hid|]; simpl.
    intros B; rewrite <- Hid; now apply Ho.
  - (* change_bubble_color *)
    unfold on_change_bubble_color.
    destruct (JsMap.get sid (users s)) as [u|] eqn:G; [|assumption]; simpl.
    apply get_In in G; destruct (proj2 Inv _ _ G) as [Hid Ho].
    apply owner_inv_set; [assumption | exact Hid|]; simpl.
    intros B; rewrite <- Hid; now apply Ho.
  - (* update_server_settings *)
    unfold on_update_server_settings.
    destruct (JsMap.get sid (users s)) as [u|]; [|assumption].
    destruct (User.isOwner u); [|assumption]; simpl.
    simpl in Hp; destruct (p_ownerId newSettings) eqn:P; [discriminate|].
    unfold owner_inv; simpl; unfold merge; rewrite P; exact Inv.
  - (* disconnect *)
    unfold on_disconnect.
    destruct (JsMap.get sid (users s)) as [u|] eqn:G; [|assumption].
    destruct (purge sid (voiceRooms s)) as [rooms1 out].
    destruct Inv as [ND Inv].
    assert (ND1 : NoDup (JsMap.keys (JsMap.delete sid (users s))))
      by now apply NoDup_keys_delete.
    assert (Inv1 : forall k u', In (k, u') (JsMap.delete sid (users s)) ->
                     k <> sid /\ User.id u' = k
                     /\ (User.isOwner u' = true ->
                         ownerId (serverSettings s) = Some (User.id u'))).
    { intros k u' H; apply In_delete in H; destruct H as [H N].
      destruct (Inv k u' H); auto. }
    apply get_In in G; destruct (Inv _ _ G) as [Hid Ho].
    destruct (User.isOwner u) eqn:B; simpl.
    + destruct (JsMap.delete sid (users s)) as [|[k newOwner] rest] eqn:D; simpl.
      * split; [constructor | intros ? ? []].
      * split; [exact ND1|]; simpl.
        intros k' u' [E|H].
        -- injection E as <- <-; simpl.
           destruct (Inv1 k newOwner (or_introl eq_refl)) as [_ [Hk _]]; auto.
        -- destruct (Inv1 k' u' (or_intror H)) as [N [Hk Hb]].
           split; [assumption|]. intros B'.
           specialize (Hb B'); rewrite (Ho eq_refl) in Hb.
           injection Hb as Hb; congruence.
    + split; [exact ND1|]; simpl.
      intros k u' H; destruct (Inv1 k u' H) as [_ [Hk Hb]]; auto.
Qed.

Lemma owner_inv_initial : owner_inv initialState.
Proof. split; simpl; [constructor | intros ? ? []]. Qed.

Lemma owner_inv_run : forall tr s,
    Forall (fun i => patches_ownerId (event i) = false) tr ->
    owner_inv s -> owner_inv (run tr s).
Proof.
  induction tr as [|i r IH]; intros s F Inv; simpl; [assumption|].
  inversion F; subst; apply IH; [assumption|].
  unfold step; now apply owner_inv_handle.
Qed.

Lemma owner_inv_at_most_one : forall s,
    owner_inv s -> List.length (owners s) <= 1.
Proof.
  intros s [ND Inv]; unfold owners, JsMap.values, JsMap.keys in *.
  destruct (ownerId (serverSettings s)) as [w|] eqn:O.
  - assert (Hw : forall k u, In (k, u) (users s) -> User.isOwner u = true -> k = w).
    { intros k u H B; destruct (Inv k u H) as [Hid Ho].
      specialize (Ho B); congruence. }
    clear Inv O; induction (users s) as [|[k u] r IH]; simpl; [lia|].
    inversion ND as [|? ? Hn ND']; subst.
    destruct (User.isOwner u) eqn:B; simpl.
    + assert (E : filter User.isOwner (map snd r) = []).
      { clear IH; assert (Hr : forall k' u', In (k', u') r ->
                                 User.isOwner u' = true -> False).
        { intros k' u' H' B'.
          assert (k' = w) by (apply Hw with u'; [now right | assumption]).
          assert (k = w) by (apply Hw with u; [now left | assumption]).
          subst; apply Hn; simpl; apply in_map_iff; now exists (w, u'). }
        clear Hw Hn ND ND'; induction r as [|[k' u'] r' IH']; simpl; [reflexivity|].
        destruct (User.isOwner u') eqn:B'.
        - exfalso; apply Hr with k' u'; [now left | assumption].
        - apply IH'; intros k2 u2 H2; apply Hr with k2; now right. }
      rewrite E; simpl; lia.
    + apply IH; [assumption|]. intros k' u' H'; apply Hw; now right.
  - assert (E : filter User.isOwner (map snd (users s)) = []).
    { assert (Hr : forall k u, In (k, u) (users s) -> User.isOwner u = false).
      { intros k u H; destruct (Inv k u H) as [_ Ho].
        destruct (User.isOwner u); [specialize (Ho eq_refl); discriminate|].
        reflexivity. }
      clear Inv ND; induction (users s) as [|[k u] r IH]; simpl; [reflexivity|].
      rewrite (Hr k u (or_introl eq_refl)); apply IH.
      intros k' u' H'; apply Hr with k'; now right. }
    rewrite E; simpl; lia.
Qed.

Lemma rooms_nonempty_run : forall tr,
    rooms_nonempty (voiceRooms (run tr initialState)).
Proof.
  intros tr.
  apply (run_invariant (fun s => rooms_nonempty (voiceRooms s))).
  - intros; now apply rooms_nonempty_handle.
  - intros ? ? [].
Qed.

Lemma members_registered_run : forall tr,
    members_registered (run tr initialState).
Proof.
  intros tr; apply (run_invariant members_registered).
  - intros; now apply members_registered_handle.
  - intros ? ? ? [].
Qed.

Lemma set_voiceRooms_same : forall s, set_voiceRooms (voiceRooms s) s = s.
Proof. now intros []. Qed.

Lemma leave_voice_non_member : forall sid roomId room s,
    JsMap.get roomId (voiceRooms s) = Some room ->
    room <> [] ->
    JsSet.has sid room = false ->
    on_leave_voice sid roomId s
    = (s, [(ToRoom (voice_room roomId), Out.voice_user_left sid)]).
Proof.
  intros sid roomId room s G N H; unfold on_leave_voice; rewrite G.
  rewrite (JsSet_delete_absent _ _ H), (set_same _ _ _ _ G).
  destruct (JsSet.size room =? 0) eqn:Z; [apply size_zero in Z; contradiction|].
  now rewrite set_voiceRooms_same.
Qed.

(** C1, as the code has it: over every sequence of events in which no
    [update_server_settings] patch carries an [ownerId] field, at most one
    registered user has [isOwner] set, and [serverSettings.ownerId] is the
    id of any user that has it set. *)
Theorem single_owner_without_ownerId_patch : forall tr,
    Forall (fun i => patches_ownerId (event i) = false) tr ->
    List.length (owners (run tr initialState)) <= 1
    /\ forall u, In u (JsMap.values (users (run tr initialState))) ->
                 User.isOwner u = true ->
                 ownerId (serverSettings (run tr initialState))
                 = Some (User.id u).
Proof.
  intros tr F.
  assert (Inv : owner_inv (run tr initialState))
    by (apply owner_inv_run; [assumption | apply owner_inv_initial]).
  split; [now apply owner_inv_at_most_one|].
  intros u Hu B; unfold JsMap.values in Hu; apply in_map_iff in Hu.
  destruct Hu as [[k u'] [E H]]; simpl in E; subst u'.
  destruct (proj2 Inv k u H) as [_ Ho]; now apply Ho.
Qed.

Lemma single_owner_without_ownerId_patch_witness :
  Forall (fun i => patches_ownerId (event i) = false) trace_succession
  /\ (List.length (owners (run trace_succession initialState)) <= 1
      /\ forall u, In u (JsMap.values (users (run trace_succession initialState))) ->
                   User.isOwner u = true ->
                   ownerId (serverSettings (run trace_succession initialState))
                   = Some (User.id u)).
Proof.
  split.
  - repeat constructor.
  - apply (single_owner_without_ownerId_patch trace_succession).
    repeat constructor.
Defined.

(** C1 fails as stated: after the owner patches [ownerId] to another
    connection's id and that connection joins, two registered users have
    [isOwner] set; and after the only user has left, no user is registered
    while [ownerId] still holds the id of the user that left. *)
Lemma two_owners_and_stale_ownerId :
  (exists w, deliver_all trace_two_owners initialWorld = Some w
             /\ map User.id (owners (server w)) = ["A"; "B"])
  /\ (exists w, deliver_all trace_stale_owner initialWorld = Some w
                /\ users (server w) = []
                /\ ownerId (serverSettings (server w)) = Some "A").
Proof.
  split; eexists; (split; [vm_compute; reflexivity|]); vm_compute; auto.
Qed.

(** C2, as the code has it: when a registered user whose [isOwner] is set
    disconnects and other users remain, the first remaining entry of the
    [users] map, in its insertion order, is the one promoted; the other
    entries are left as they are, [serverSettings.ownerId] becomes that
    user's id, and [owner_status] and [server_settings] are emitted in the
    same handler. *)
Theorem succession_promotes_first_entry :
  forall sid o s u k newOwner rest,
    JsMap.get sid (users s) = Some u ->
    User.isOwner u = true ->
    JsMap.delete sid (users s) = (k, newOwner) :: rest ->
    users (fst (handle sid o disconnect s))
    = (k, User.with_isOwner true newOwner) :: rest
    /\ ownerId (serverSettings (fst (handle sid o disconnect s)))
       = Some (User.id newOwner)
    /\ In (ToRoom (User.id newOwner), Out.owner_status true)
          (snd (handle sid o disconnect s))
    /\ In (ToAll,
           Out.server_settings (serverSettings (fst (handle sid o disconnect s))))
          (snd (handle sid o disconnect s)).
Proof.
  intros sid o s u k newOwner rest G B D; simpl; unfold on_disconnect.
  rewrite G, D, B; destruct (purge sid (voiceRooms s)) as [rooms1 out]; simpl.
  repeat split; apply in_or_app; right; simpl; auto.
Qed.

Lemma succession_promotes_first_entry_witness :
  users (fst (handle "A" (at_ 6 "6") disconnect before_succession))
  = [("B", User.with_isOwner true (User.mk "B" "bob" "#007bff" false 4%Z))]
  /\ ownerId (serverSettings
                (fst (handle "A" (at_ 6 "6") disconnect before_succession)))
     = Some "B".
Proof.
  destruct (succession_promotes_first_entry
              "A" (at_ 6 "6") before_succession
              (User.mk "A" "alice" "#007bff" true 2%Z)
              "B" (User.mk "B" "bob" "#007bff" false 4%Z) []
              eq_refl eq_refl eq_refl) as [Hu [Ho _]].
  split; [exact Hu | exact Ho].
Defined.

(** C2 fails as stated: O, A and B join in that order and A sends
    [user_join] again, which rewrites A's [joinTime] and leaves A's place in
    the map; when O leaves, A (joined at 7) is promoted although B (joined
    at 6) has the earlier join time. *)
Lemma succession_not_by_join_time :
  exists w, deliver_all trace_rejoin initialWorld = Some w
    /\ map (fun u => (User.id u, User.isOwner u)) (JsMap.values (users (server w)))
       = [("O", true); ("A", false); ("B", false)]
    /\ map (fun u => (User.id u, User.isOwner u, User.joinTime u))
           (JsMap.values
              (users (fst (handle "O" (at_ 8 "8") disconnect (server w)))))
       = [("A", true, 7%Z); ("B", false, 6%Z)]
    /\ ownerId (serverSettings (fst (handle "O" (at_ 8 "8") disconnect (server w))))
       = Some "A".
Proof.
  eexists; split; [vm_compute; reflexivity|]; vm_compute; auto.
Qed.

(** C7: no run leaves a voice room with an empty member set, and every
    handler, [join_voice], [leave_voice] and [disconnect] among them, keeps
    the registry free of empty rooms. *)
Theorem voice_rooms_never_empty :
  (forall tr, rooms_nonempty (voiceRooms (run tr initialState)))
  /\ (forall sid o ev s,
         rooms_nonempty (voiceRooms s) ->
         rooms_nonempty (voiceRooms (fst (handle sid o ev s)))).
Proof.
  split; [exact rooms_nonempty_run | exact rooms_nonempty_handle].
Qed.

(** C8: when the owner sends [update_server_settings] with a patch that
    has an [ownerId] field, the stored [ownerId] becomes the patch's value,
    whatever it is, the other fields are merged the same way, and the
    [users] map, with every [isOwner] flag, is left untouched. *)
Theorem ownerId_patch_is_not_validated :
  forall sid o s u p v,
    JsMap.get sid (users s) = Some u ->
    User.isOwner u = true ->
    p_ownerId p = Some v ->
    serverSettings (fst (handle sid o (update_server_settings p) s))
    = merge (serverSettings s) p
    /\ ownerId (serverSettings (fst (handle sid o (update_server_settings p) s)))
       = v
    /\ users (fst (handle sid o (update_server_settings p) s)) = users s.
Proof.
  intros sid o s u p v G B P; simpl; unfold on_update_server_settings.
  rewrite G, B; simpl; unfold merge; rewrite P; auto.
Qed.

Lemma ownerId_patch_is_not_validated_witness :
  JsMap.keys (users after_succession) = ["B"]
  /\ serverSettings
       (fst (handle "B" (at_ 7 "7") (update_server_settings patch_nobody)
                    after_succession))
     = merge (serverSettings after_succession) patch_nobody
  /\ ownerId (serverSettings
                (fst (handle "B" (at_ 7 "7") (update_server_settings patch_nobody)
                             after_succession)))
     = Some "nobody"
  /\ users (fst (handle "B" (at_ 7 "7") (update_server_settings patch_nobody)
                        after_succession))
     = users after_succession.
Proof.
  split; [reflexivity|].
  apply (ownerId_patch_is_not_validated
           "B" (at_ 7 "7") after_succession
           (User.mk "B" "bob" "#007bff" true 4%Z) patch_nobody
           (Some "nobody") eq_refl eq_refl eq_refl).
Defined.

(** C9: a [send_message] whose content sanitizes to the empty string and
    that has no attachment changes nothing and emits nothing. *)
Theorem empty_message_is_dropped :
  forall sid o s messageData,
    sanitizeInput (MessageData.content messageData) = "" ->
    MessageData.attachment messageData = None ->
    handle sid o (send_message messageData) s = (s, []).
Proof.
  intros sid o s md C A; simpl; unfold on_send_message.
  destruct (JsMap.get sid (users s)); [|reflexivity].
  now rewrite C, A.
Qed.

Lemma empty_message_is_dropped_witness :
  JsMap.has "B" (users after_succession) = true
  /\ handle "B" (at_ 7 "7")
            (send_message (MessageData.mk (Some " <> ") None None None))
            after_succession
     = (after_succession, []).
Proof.
  split; [reflexivity|].
  apply (empty_message_is_dropped
           "B" (at_ 7 "7") after_succession
           (MessageData.mk (Some " <> ") None None None)); reflexivity.
Defined.

(** C10: in every reachable state, [leave_voice] for an existing room
    emits [voice_user_left] for the calling socket to the room, whether or
    not the socket is a member; when it is not, the state, the member set
    included, stays as it was. *)
Theorem leave_voice_by_non_member_emits :
  forall tr sid o roomId room,
    JsMap.get roomId (voiceRooms (run tr initialState)) = Some room ->
    snd (handle sid o (leave_voice roomId) (run tr initialState))
    = [(ToRoom (voice_room roomId), Out.voice_user_left sid)]
    /\ (JsSet.has sid room = false ->
        fst (handle sid o (leave_voice roomId) (run tr initialState))
        = run tr initialState).
Proof.
  intros tr sid o roomId room G; simpl; split.
  - unfold on_leave_voice; now rewrite G.
  - intros H; rewrite (leave_voice_non_member sid roomId room);
      try assumption; [reflexivity|].
    apply (rooms_nonempty_run tr roomId); now apply get_In.
Qed.

Lemma leave_voice_by_non_member_emits_witness :
  JsSet.has "C" ["B"] = false
  /\ snd (handle "C" (at_ 7 "7") (leave_voice "r1") after_succession)
     = [(ToRoom "voice_r1", Out.voice_user_left "C")]
  /\ fst (handle "C" (at_ 7 "7") (leave_voice "r1") after_succession)
     = after_succession.
Proof.
  split; [reflexivity|].
  destruct (leave_voice_by_non_member_emits
              trace_succession "C" (at_ 7 "7") "r1" ["B"] eq_refl)
    as [Hemit Hstate].
  split; [exact Hemit | exact (Hstate eq_refl)].
Defined.

(** ** Search *)

Lemma startsWith_spec : forall p s,
    Text.startsWith p s = true <-> exists r, s = (p ++ r)%string.
Proof.
  induction p as [|a p IH]; intros s; simpl.
  - split; [intros _; now exists s | reflexivity].
  - destruct s as [|b s]; [split; [discriminate | intros [r E]; discriminate]|].
    rewrite andb_true_iff, IH; split.
    + intros [E [r ->]]; apply Ascii.eqb_eq in E; subst; now exists r.
    + intros [r E]; injection E as -> ->; split;
        [apply Ascii.eqb_refl | now exists r].
Qed.

Lemma includes_spec : forall q s,
    Text.includes q s = true
    <-> exists pre post, s = (pre ++ q ++ post)%string.
Proof.
  intros q s; induction s as [|c s IH].
  - simpl; rewrite orb_false_r, startsWith_spec; split.
    + intros [r E]; now exists EmptyString, r.
    + intros [pre [post E]]; destruct pre; [now exists post | discriminate].
  - cbn [Text.includes]; rewrite orb_true_iff, startsWith_spec, IH; split.
    + intros [[r E]|[pre [post E]]].
      * now exists EmptyString, r.
      * exists (String c pre), post; simpl; now rewrite E.
    + intros [pre [post E]]; destruct pre as [|a pre]; simpl in E.
      * left; now exists post.
      * right; injection E as _ E; now exists pre, post.
Qed.










Lemma filter_all_In : forall A (f : A -> bool) l,
    (forall x, In x l -> f x = true) -> filter f l = l.
Proof.
  intros A f l; induction l as [|x r IH]; simpl; intros H; [reflexivity|].
  rewrite (H x (or_introl eq_refl)), IH; [reflexivity|].
  intros y Hy; apply H; now right.
Qed.


(** ** Reactions *)

Lemma findIndex_update : forall A (p : A -> bool) (f : A -> A) a i,
    (forall x, p (f x) = p x) ->
    JsArray.findIndex p (JsArray.update i f a) = JsArray.findIndex p a.
Proof.
  intros A p f a; induction a as [|x r IH]; intros [|i] E; simpl;
    try reflexivity.
  - now rewrite E.
  - now rewrite IH.
Qed.

Lemma reaction_map_ok_set : forall r e l,
    reaction_map_ok r -> NoDup l -> reaction_map_ok (JsMap.set e l r).
Proof.
  intros r e l [ND Hl] Nl; split.
  - now apply NoDup_keys_set.
  - intros e' l' H; apply In_set in H; destruct H as [[_ ->]|H];
      [assumption | now apply Hl with e'].
Qed.

Lemma reaction_map_ok_nil : reaction_map_ok [].
Proof. split; [constructor | intros ? ? []]. Qed.

Lemma NoDup_push : forall (x : string) l,
    existsb (String.eqb x) l = false -> NoDup l -> NoDup (l ++ [x]).
Proof.
  intros x l H ND; apply (proj1 (mem_false x l)) in H.
  apply NoDup_app; [assumption | repeat constructor; intros [] |].
  intros y Hy [<-|[]]; contradiction.
Qed.

Lemma set_messages_same : forall s, set_messages (messages s) s = s.
Proof. now intros []. Qed.

(** What [add_reaction] does when it finds the message and the user. *)
Lemma add_reaction_found : forall sid messageId emoji s i u m,
    JsArray.findIndex (has_id messageId) (messages s) = Some i ->
    JsMap.get sid (users s) = Some u ->
    nth_error (messages s) i = Some m ->
    exists R l,
      fst (on_add_reaction sid messageId emoji s)
      = set_messages (JsArray.update i (Message.with_reactions R) (messages s)) s
      /\ JsMap.get emoji R = Some l
      /\ In (User.username u) l
      /\ ((forall r, Message.reactions m = Some r -> reaction_map_ok r) ->
          reaction_map_ok R).
Proof.
  intros sid messageId emoji s i u m F G N; unfold on_add_reaction.
  rewrite F, G, N.
  set (r0 := match Message.reactions m with Some r => r | None => [] end).
  assert (Ok0 : (forall r, Message.reactions m = Some r -> reaction_map_ok r) ->
                reaction_map_ok r0).
  { intros H; unfold r0; destruct (Message.reactions m);
      [now apply H | apply reaction_map_ok_nil]. }
  set (r1 := if JsMap.has emoji r0 then r0 else JsMap.set emoji [] r0).
  assert (Ok1 : reaction_map_ok r0 -> reaction_map_ok r1).
  { intros H; unfold r1; destruct (JsMap.has emoji r0); [assumption|].
    apply reaction_map_ok_set; [assumption | constructor]. }
  assert (G1 : exists l, JsMap.get emoji r1 = Some l).
  { unfold r1, JsMap.has; destruct (JsMap.get emoji r0) as [l|] eqn:E.
    - now exists l.
    - exists []; apply get_set_same. }
  destruct G1 as [l G1]; rewrite G1.
  destruct (existsb (String.eqb (User.username u)) l) eqn:Inc; simpl.
  - exists r1, l; split; [reflexivity|]; split; [exact G1|]; split.
    + apply mem_In; exact Inc.
    + intros H; auto.
  - exists (JsMap.set emoji (l ++ [User.username u]) r1), (l ++ [User.username u]).
    split; [reflexivity|]; split; [|split].
    + apply get_set_same.
    + apply in_or_app; right; now left.
    + intros H; apply reaction_map_ok_set; [auto|].
      apply NoDup_push; [assumption|].
      apply get_In in G1; exact (proj2 (Ok1 (Ok0 H)) _ _ G1).
Qed.

(** A repeated [add_reaction] finds the username in the list and stops. *)
Lemma add_reaction_again : forall sid messageId emoji s i u m R l,
    JsArray.findIndex (has_id messageId) (messages s) = Some i ->
    JsMap.get sid (users s) = Some u ->
    nth_error (messages s) i = Some m ->
    Message.reactions m = Some R ->
    JsMap.get emoji R = Some l ->
    In (User.username u) l ->
    on_add_reaction sid messageId emoji s = (s, []).
Proof.
  intros sid messageId emoji s i u m R l F G N HR GR Hin; unfold on_add_reaction.
  rewrite F, G, N, HR; unfold JsMap.has; rewrite GR, GR.
  apply mem_In in Hin; unfold mem in Hin; rewrite Hin.
  rewrite (update_fixed _ _ _ _ m N).
  - now rewrite set_messages_same.
  - destruct m; simpl in *; now rewrite HR.
Qed.

Lemma reactions_distinct_handle : forall sid o ev s,
    reactions_distinct s -> reactions_distinct (fst (handle sid o ev s)).
Proof.
  intros sid o ev s Inv.
  assert (Grow : forall m0 s',
             Message.reactions m0 = None \/ Message.reactions m0 = Some [] ->
             messages s' = messages s ++ [m0] -> reactions_distinct s').
  { intros m0 s' Hm E m Hin r Hr; rewrite E in Hin.
    apply in_app_iff in Hin; destruct Hin as [Hin|[<-|[]]];
      [now apply Inv with m|].
    destruct Hm as [Hm|Hm]; rewrite Hm in Hr; [discriminate|].
    injection Hr as <-; apply reaction_map_ok_nil. }
  destruct ev;
    try (intros m Hin; rewrite messages_frame in Hin by exact I;
         now apply Inv); simpl.
  - (* user_join *)
    unfold on_user_join; eapply Grow; [|reflexivity]; now left.
  - (* change_username *)
    unfold on_change_username; destruct (JsMap.get sid (users s));
      [|assumption].
    eapply Grow; [|reflexivity]; now left.
  - (* send_message *)
    unfold on_send_message; destruct (JsMap.get sid (users s)); [|assumption].
    break_match; [assumption|].
    eapply Grow; [|reflexivity]; now right.
  - (* edit_message *)
    unfold on_edit_message; repeat break_match; try assumption; simpl.
    intros m Hin r Hr; apply In_update in Hin.
    destruct Hin as [Hin|[x [Hx ->]]]; [now apply Inv with m|].
    apply nth_error_In in Hx; now apply Inv with x.
  - (* delete_message *)
    unfold on_delete_message; repeat break_match; try assumption; simpl.
    intros m Hin; apply In_splice1 in Hin; now apply Inv.
  - (* add_reaction *)
    destruct (JsArray.findIndex (has_id messageId) (messages s)) as [i|] eqn:F;
      [|unfold on_add_reaction; now rewrite F].
    destruct (JsMap.get sid (users s)) as [u|] eqn:G;
      [|unfold on_add_reaction; now rewrite F, G].
    destruct (nth_error (messages s) i) as [m|] eqn:N;
      [|unfold on_add_reaction; now rewrite F, G, N].
    destruct (add_reaction_found sid messageId emoji s i u m F G N)
      as [R [l [E [_ [_ Ok]]]]].
    rewrite E; simpl; intros m' Hin r Hr; apply In_update in Hin.
    destruct Hin as [Hin|[x [Hx ->]]]; [now apply Inv with m'|].
    simpl in Hr; injection Hr as <-; apply Ok.
    rewrite N in Hx; injection Hx as <-.
    apply nth_error_In in N; intros r; now apply Inv.
  - (* disconnect *)
    unfold on_disconnect; destruct (JsMap.get sid (users s)); [|assumption].
    destruct (purge sid (voiceRooms s)).
    repeat break_match; (eapply Grow; [|reflexivity]; now left).
Qed.

Lemma reactions_distinct_run : forall tr,
    reactions_distinct (run tr initialState).
Proof.
  intros tr; apply (run_invariant reactions_distinct).
  - intros; now apply reactions_distinct_handle.
  - intros ? [].
Qed.

(** C5: in every reachable state no reaction list holds a username twice
    (and no message holds an emoji twice); and when a registered user
    reacts to an existing message, the username occurs exactly once in
    that message's list for the emoji, and reacting again changes nothing
    and emits nothing. *)
Theorem reaction_added_once :
  forall tr,
    reactions_distinct (run tr initialState)
    /\ forall sid o o' messageId emoji u i,
        JsMap.get sid (users (run tr initialState)) = Some u ->
        JsArray.findIndex (has_id messageId) (messages (run tr initialState))
        = Some i ->
        (exists m1,
            nth_error
              (messages (fst (handle sid o (add_reaction messageId emoji)
                                     (run tr initialState)))) i
            = Some m1
            /\ Message.id m1 = messageId
            /\ count_occ string_dec (reaction_users emoji m1) (User.username u)
               = 1)
        /\ handle sid o' (add_reaction messageId emoji)
                  (fst (handle sid o (add_reaction messageId emoji)
                               (run tr initialState)))
           = (fst (handle sid o (add_reaction messageId emoji)
                          (run tr initialState)), []).
Proof.
  intros tr; split; [apply reactions_distinct_run|].
  intros sid o o' messageId emoji u i G F.
  set (s := run tr initialState) in *.
  destruct (findIndex_Some _ _ _ _ F) as [m [N Pm]].
  destruct (add_reaction_found sid messageId emoji s i u m F G N)
    as [R [l [E [GR [Hin _]]]]].
  assert (Inv1 : reactions_distinct
                   (fst (handle sid o (add_reaction messageId emoji) s)))
    by (apply reactions_distinct_handle; apply reactions_distinct_run).
  simpl in *.
  assert (N1 : nth_error (messages (fst (on_add_reaction sid messageId emoji s))) i
               = Some (Message.with_reactions R m))
    by (rewrite E; simpl; now rewrite nth_error_update, N).
  split.
  - exists (Message.with_reactions R m); split; [exact N1|]; split.
    + unfold has_id in Pm; now apply String.eqb_eq in Pm.
    + unfold reaction_users; simpl; rewrite GR.
      apply NoDup_count_occ'; [|assumption].
      apply nth_error_In in N1.
      exact (proj2 (Inv1 _ N1 R eq_refl) _ _ (get_In _ _ _ _ GR)).
  - apply add_reaction_again with i u (Message.with_reactions R m) R l;
      try assumption; try reflexivity.
    + rewrite E; simpl; rewrite findIndex_update; [assumption | reflexivity].
    + now rewrite E.
Qed.

Lemma reaction_added_once_witness :
  (exists m1,
      nth_error
        (messages (fst (handle "A" (at_ 4 "4") (add_reaction "3" "+1")
                               (run trace_message initialState)))) 1
      = Some m1
      /\ Message.id m1 = "3"
      /\ count_occ string_dec (reaction_users "+1" m1) "alice" = 1)
  /\ handle "A" (at_ 5 "5") (add_reaction "3" "+1")
            (fst (handle "A" (at_ 4 "4") (add_reaction "3" "+1")
                         (run trace_message initialState)))
     = (fst (handle "A" (at_ 4 "4") (add_reaction "3" "+1")
                    (run trace_message initialState)), []).
Proof.
  apply (proj2 (reaction_added_once trace_message)
               "A" (at_ 4 "4") (at_ 5 "5") "3" "+1"
               (User.mk "A" "alice" "#007bff" true 2%Z) 1);
    reflexivity.
Defined.

(** ** What a handler does to the log and to the set of users *)

Lemma map_splice1 : forall A B (f : A -> B) a i,
    map f (JsArray.splice1 i a) = JsArray.splice1 i (map f a).
Proof.
  intros A B f a; induction a as [|x r IH]; intros [|i]; simpl;
    try reflexivity; now rewrite IH.
Qed.

Lemma NoDup_splice1 : forall A (a : list A) i,
    NoDup a -> NoDup (JsArray.splice1 i a).
Proof.
  intros A a; induction a as [|x r IH]; intros [|i] ND; simpl;
    inversion ND; subst; try assumption; try constructor.
  - intros H; apply In_splice1 in H; contradiction.
  - now apply IH.
Qed.

(** The ids of the log after a handler: unchanged, one more (the uuid of
    this invocation), or one spliced out. *)
Lemma ids_handle : forall sid o ev s,
    let ids := map Message.id (messages s) in
    let ids' := map Message.id (messages (fst (handle sid o ev s))) in
    ids' = ids \/ ids' = ids ++ [uuid o]
    \/ exists i, ids' = JsArray.splice1 i ids.
Proof.
  intros sid o ev s; simpl.
  destruct ev; try (left; now rewrite messages_frame by exact I);
    simpl; unfold_handlers; repeat break_match; simpl;
    try (left; reflexivity);
    try (right; left; now rewrite map_app);
    try (left; now apply map_update);
    try (right; right; eexists; now apply map_splice1).
Qed.

Lemma authors_handle : forall sid o ev s m' a,
    In m' (messages (fst (handle sid o ev s))) ->
    Message.userId m' = Some a ->
    (exists m, In m (messages s) /\ Message.userId m = Some a)
    \/ (a = sid /\ In sid (JsMap.keys (users (fst (handle sid o ev s))))).
Proof.
  intros sid o ev s m' a.
  assert (Old : In m' (messages s) -> Message.userId m' = Some a ->
                (exists m, In m (messages s) /\ Message.userId m = Some a)
                \/ (a = sid /\ In sid (JsMap.keys (users (fst (handle sid o ev s))))))
    by (intros; left; now exists m').
  assert (Upd : forall i (f : Message.t -> Message.t),
             (forall x, Message.userId (f x) = Message.userId x) ->
             In m' (JsArray.update i f (messages s)) ->
             Message.userId m' = Some a ->
             exists m, In m (messages s) /\ Message.userId m = Some a).
  { intros i f Hf Hin Hu; apply In_update in Hin.
    destruct Hin as [Hin|[x [Hx ->]]]; [now exists m'|].
    exists x; split; [now apply nth_error_In in Hx | now rewrite <- Hf]. }
  destruct ev; try (rewrite messages_frame by exact I; exact Old);
    clear Old; simpl.
  - (* user_join *)
    unfold on_user_join; simpl; intros Hin Hu.
    apply in_app_iff in Hin; destruct Hin as [Hin|[<-|[]]];
      [left; now exists m' | discriminate].
  - (* change_username *)
    unfold on_change_username; destruct (JsMap.get sid (users s));
      simpl; intros Hin Hu; [|left; now exists m'].
    apply in_app_iff in Hin; destruct Hin as [Hin|[<-|[]]];
      [left; now exists m' | discriminate].
  - (* send_message *)
    unfold on_send_message; destruct (JsMap.get sid (users s)) eqn:G;
      [|intros; left; now exists m'].
    break_match; simpl; intros Hin Hu; [left; now exists m'|].
    apply in_app_iff in Hin; destruct Hin as [Hin|[<-|[]]];
      [left; now exists m'|].
    simpl in Hu; injection Hu as <-; right; split; [reflexivity|].
    now apply get_Some_key in G.
  - (* edit_message *)
    unfold on_edit_message; repeat break_match; simpl; intros Hin Hu;
      try (left; now exists m').
    left; eapply Upd; [|exact Hin|exact Hu]; reflexivity.
  - (* delete_message *)
    unfold on_delete_message; repeat break_match; simpl; intros Hin Hu;
      try (left; now exists m').
    apply In_splice1 in Hin; left; now exists m'.
  - (* add_reaction *)
    unfold on_add_reaction; repeat break_match; simpl; intros Hin Hu;
      try (left; now exists m');
      (left; eapply Upd; [|exact Hin|exact Hu]; reflexivity).
  - (* disconnect *)
    unfold on_disconnect; destruct (JsMap.get sid (users s));
      [|intros; left; now exists m'].
    destruct (purge sid (voiceRooms s)).
    repeat break_match; simpl; intros Hin Hu;
      (apply in_app_iff in Hin; destruct Hin as [Hin|[<-|[]]];
       [left; now exists m' | discriminate]).
Qed.

Lemma keys_disconnect : forall sid o s k,
    In k (JsMap.keys (users (fst (on_disconnect sid o s))))
    <-> In k (JsMap.keys (users s)) /\ k <> sid.
Proof.
  intros sid o s k.
  destruct (on_disconnect_shape sid o s) as [E|[u [G [_ K]]]].
  - rewrite E; simpl; split; [|tauto]. intros H; split; [assumption|].
    intros ->; revert E; unfold on_disconnect.
    destruct (JsMap.get sid (users s)) eqn:G.
    + destruct (purge sid (voiceRooms s)); repeat break_match;
        intros E; injection E as E _;
        apply (f_equal (fun x => List.length (messages x))) in E; simpl in E;
        rewrite length_app in E; simpl in E; lia.
    + intros _; apply get_None in G; contradiction.
  - rewrite K; apply In_keys_delete.
Qed.

Lemma keys_handle_new : forall sid o ev s k,
    ev <> disconnect ->
    In k (JsMap.keys (users (fst (handle sid o ev s)))) ->
    k = sid \/ In k (JsMap.keys (users s)).
Proof.
  intros sid o ev s k Nd.
  destruct ev; try (rewrite users_frame by exact I; now right);
    try congruence; simpl; unfold_handlers; repeat break_match; simpl;
    try (now right); intros H; now apply In_keys_set in H.
Qed.

(** ** Reachable worlds *)

Lemma deliver_all_server : forall tr w w',
    deliver_all tr w = Some w' -> server w' = run tr (server w).
Proof.
  induction tr as [|i r IH]; simpl; intros w w' H.
  - now injection H as <-.
  - destruct (deliver w i) as [w1|] eqn:D; [|discriminate].
    rewrite (IH _ _ H); unfold deliver in D.
    destruct (admissible w i); [|discriminate].
    now injection D as <-.
Qed.

Lemma world_inv_deliver : forall w i w',
    world_inv w -> deliver w i = Some w' -> world_inv w'.
Proof.
  intros w i w' [W1 [W2 [W3 [W4 W5]]]] D; unfold deliver in D.
  destruct (admissible w i) eqn:Adm; [|discriminate].
  injection D as <-; unfold admissible in Adm.
  apply andb_true_iff in Adm; destruct Adm as [Fresh Sock].
  apply negb_true_iff, mem_false in Fresh.
  destruct i as [sid o ev]; unfold step; simpl in *.
  assert (W1' : forall k,
             In k (JsMap.keys (users (fst (handle sid o ev (server w))))) ->
             In k match ev with
                  | connection => sid :: live w
                  | disconnect => JsSet.delete sid (live w)
                  | _ => live w
                  end).
  { intros k Hk.
    assert (Other : ev <> disconnect -> mem sid (live w) = true -> In k (live w)).
    { intros Nd Hs; apply keys_handle_new in Hk; [|assumption].
      destruct Hk as [->|Hk]; [now apply mem_In | now apply W1]. }
    destruct ev; try (apply Other; [discriminate | assumption]).
    - rewrite users_frame in Hk by exact I; right; now apply W1.
    - simpl in Hk; apply keys_disconnect in Hk; destruct Hk as [Hk N].
      apply JsSet_In_delete; split; [now apply W1 | assumption]. }
  assert (W2' : forall k,
             In k match ev with
                  | connection => sid :: live w
                  | disconnect => JsSet.delete sid (live w)
                  | _ => live w
                  end ->
             In k match ev with
                  | connection => sid :: seen w
                  | _ => seen w
                  end).
  { intros k Hk; destruct ev; try (now apply W2).
    - destruct Hk as [->|Hk]; [now left | right; now apply W2].
    - apply JsSet_In_delete in Hk; now apply W2. }
  split; [exact W1'|]; split; [exact W2'|]; split; [|split].
  - (* authors *)
    intros m' Hin a Hu.
    destruct (authors_handle sid o ev (server w) m' a Hin Hu)
      as [[m [Hm Hum]]|[-> Hk]].
    + destruct (W3 m Hm a Hum) as [Hseen Hlive]; split.
      * destruct ev; try assumption; now right.
      * intros Hl.
        destruct ev;
          try (apply keys_handle_grow; [discriminate | now apply Hlive]).
        -- apply keys_handle_grow; [discriminate|]. apply Hlive.
           destruct Hl as [<-|Hl]; [|assumption].
           apply negb_true_iff, mem_false in Sock; contradiction.
        -- simpl; apply keys_disconnect.
           apply JsSet_In_delete in Hl; destruct Hl as [Hl N].
           split; [now apply Hlive | assumption].
    + split; [|intros _; assumption]. now apply W2', W1'.
  - (* ids are issued *)
    intros m' Hin.
    assert (Hid : In (Message.id m')
                     (map Message.id (messages (fst (handle sid o ev (server w))))))
      by now apply in_map.
    assert (Sub : forall x, In x (map Message.id (messages (server w))) ->
                            uuid o = x \/ In x (issued w)).
    { intros x Hx; right; apply in_map_iff in Hx.
      destruct Hx as [m [<- Hm]]; now apply W4. }
    destruct (ids_handle sid o ev (server w)) as [E|[E|[j E]]];
      simpl in E; rewrite E in Hid.
    + now apply Sub.
    + apply in_app_iff in Hid; destruct Hid as [Hid|[<-|[]]];
        [now apply Sub | now left].
    + apply In_splice1 in Hid; now apply Sub.
  - (* ids are distinct *)
    simpl.
    destruct (ids_handle sid o ev (server w)) as [E|[E|[j E]]];
      simpl in E; rewrite E.
    + assumption.
    + apply NoDup_app; [assumption | repeat constructor; intros [] |].
      intros x Hx [<-|[]]; apply Fresh.
      apply in_map_iff in Hx; destruct Hx as [m [<- Hm]]; now apply W4.
    + now apply NoDup_splice1.
Qed.

Lemma world_inv_initial : world_inv initialWorld.
Proof.
  repeat split; simpl; try contradiction; try constructor; intros ? [].
Qed.

Lemma world_inv_deliver_all : forall tr w w',
    world_inv w -> deliver_all tr w = Some w' -> world_inv w'.
Proof.
  induction tr as [|i r IH]; simpl; intros w w' Inv H.
  - now injection H as <-.
  - destruct (deliver w i) as [w1|] eqn:D; [|discriminate].
    apply IH with w1; [|assumption]. now apply world_inv_deliver with w i.
Qed.

Lemma reachable_inv : forall tr w,
    deliver_all tr initialWorld = Some w ->
    world_inv w /\ server w = run tr initialState.
Proof.
  intros tr w H; split.
  - apply world_inv_deliver_all with tr initialWorld;
      [apply world_inv_initial | assumption].
  - now rewrite (deliver_all_server _ _ _ H).
Qed.

(** ** Events on a socket that has not joined *)

Lemma authored_by_spec : forall sid m,
    authored_by sid m = true <-> Message.userId m = Some sid.
Proof.
  intros sid m; unfold authored_by; destruct (Message.userId m) as [a|].
  - rewrite String.eqb_eq; split; congruence.
  - split; discriminate.
Qed.

Lemma no_authored : forall w sid,
    world_inv w -> In sid (live w) ->
    JsMap.get sid (users (server w)) = None ->
    forall m, In m (messages (server w)) -> authored_by sid m = false.
Proof.
  intros w sid [_ [_ [W3 _]]] Hl G m Hm.
  destruct (authored_by sid m) eqn:A; [|reflexivity].
  apply authored_by_spec in A; destruct (W3 m Hm sid A) as [_ Hk].
  apply get_None in G; exfalso; now apply G, Hk.
Qed.

Lemma silent_handle : forall sid o ev s,
    silent_without_identity ev = true ->
    JsMap.get sid (users s) = None ->
    (forall m, In m (messages s) -> authored_by sid m = false) ->
    handle sid o ev s = (s, []).
Proof.
  intros sid o ev s Hs G Na; destruct ev; try discriminate; simpl.
  - unfold on_change_username; now rewrite G.
  - unfold on_change_bubble_color; now rewrite G.
  - unfold on_send_message; now rewrite G.
  - unfold on_edit_message.
    destruct (JsArray.findIndex (has_id messageId) (messages s)); [|reflexivity].
    destruct (nth_error (messages s) n) as [m|] eqn:N; [|reflexivity].
    apply nth_error_In in N; now rewrite (Na m N).
  - unfold on_delete_message, actor_isOwner; rewrite G.
    destruct (JsArray.findIndex (has_id messageId) (messages s)); [|reflexivity].
    destruct (nth_error (messages s) n) as [m|] eqn:N; [|reflexivity].
    apply nth_error_In in N; now rewrite (Na m N).
  - unfold on_add_reaction; rewrite G.
    now destruct (JsArray.findIndex (has_id messageId) (messages s)).
  - unfold on_join_voice; rewrite G.
    now destruct (negb (allowVoiceChat (serverSettings s))).
  - unfold on_update_server_settings; now rewrite G.
Qed.

(** C3, as the code has it: on a connected socket with no entry in
    [users], the handlers that read the user record ([change_username],
    [change_bubble_color], [send_message], [add_reaction], [join_voice],
    [update_server_settings]) and the two that compare the author
    ([edit_message], [delete_message]) change nothing and emit nothing;
    [leave_voice], [search_messages] and the three signaling handlers have
    no such check: they change no state either, but [search_messages]
    answers the caller with [search_results], [leave_voice] emits
    [voice_user_left] to the room when the room exists (and nothing when
    it does not), and each signaling event is relayed to its target with
    the caller as sender. *)
Theorem events_without_identity :
  forall tr w sid o ev,
    deliver_all tr initialWorld = Some w ->
    In sid (live w) ->
    JsMap.get sid (users (server w)) = None ->
    (silent_without_identity ev = true ->
     handle sid o ev (server w) = (server w, []))
    /\ (joined_only ev = true ->
        fst (handle sid o ev (server w)) = server w)
    /\ match ev with
       | search_messages query =>
           snd (handle sid o ev (server w))
           = [(ToSocket sid,
               Out.search_results
                 (filter (search_hit (Text.toLowerCase (sanitizeInput query)))
                         (messages (server w))))]
       | leave_voice roomId =>
           (JsMap.get roomId (voiceRooms (server w)) <> None ->
            snd (handle sid o ev (server w))
            = [(ToRoom (voice_room roomId), Out.voice_user_left sid)])
           /\ (JsMap.get roomId (voiceRooms (server w)) = None ->
               snd (handle sid o ev (server w)) = [])
       | webrtc_offer target offer =>
           snd (handle sid o ev (server w))
           = [(ToRoomExcept target sid, Out.webrtc_offer offer sid)]
       | webrtc_answer target answer =>
           snd (handle sid o ev (server w))
           = [(ToRoomExcept target sid, Out.webrtc_answer answer sid)]
       | webrtc_ice_candidate target candidate =>
           snd (handle sid o ev (server w))
           = [(ToRoomExcept target sid, Out.webrtc_ice_candidate candidate sid)]
       | _ => True
       end.
Proof.
  intros tr w sid o ev R Hl G.
  destruct (reachable_inv tr w R) as [Inv Es].
  assert (Silent : silent_without_identity ev = true ->
                   handle sid o ev (server w) = (server w, [])).
  { intros Hs; apply silent_handle; try assumption.
    now apply no_authored. }
  split; [exact Silent|]. split.
  - intros J.
    destruct (silent_without_identity ev) eqn:S;
      [now rewrite Silent|].
    destruct ev; try discriminate; try reflexivity; simpl.
    (* leave_voice *)
    destruct (JsMap.get roomId (voiceRooms (server w))) as [room|] eqn:Gr;
      [|unfold on_leave_voice; now rewrite Gr].
    rewrite (leave_voice_non_member sid roomId room); try assumption;
      [reflexivity | |].
    + apply get_In in Gr; rewrite Es in Gr.
      exact (rooms_nonempty_run tr roomId room Gr).
    + destruct (JsSet.has sid room) eqn:Hm; [|reflexivity].
      apply JsSet_has_In in Hm; apply get_In in Gr; rewrite Es in Gr.
      pose proof (members_registered_run tr roomId room sid Gr Hm) as Hk.
      rewrite <- Es in Hk; apply get_None in G; contradiction.
  - destruct ev; try exact I; simpl; try reflexivity.
    + (* leave_voice *)
      unfold on_leave_voice.
      destruct (JsMap.get roomId (voiceRooms (server w))); split;
        try reflexivity; try discriminate; intros N; now contradiction N.
Qed.

Lemma events_without_identity_witness :
  (exists w, deliver_all trace_lurker initialWorld = Some w
             /\ JsMap.get "C" (users (server w)) = None
             /\ handle "C" (at_ 9 "9") (delete_message "5") (server w)
                = (server w, [])
             /\ fst (handle "C" (at_ 9 "9") (leave_voice "r1") (server w))
                = server w
             /\ snd (handle "C" (at_ 9 "9") (webrtc_answer "A" "sdp") (server w))
                = [(ToRoomExcept "A" "C", Out.webrtc_answer "sdp" "C")]).
Proof.
  destruct (deliver_all trace_lurker initialWorld) as [w|] eqn:R;
    [|vm_compute in R; discriminate].
  exists w; split; [reflexivity|].
  assert (E : w = world_lurker)
    by (vm_compute in R; injection R as <-; reflexivity).
  assert (Hl : In "C" (live w)) by (rewrite E; vm_compute; auto).
  assert (G : JsMap.get "C" (users (server w)) = None)
    by (rewrite E; reflexivity).
  split; [exact G|]; split; [|split].
  - apply (proj1 (events_without_identity trace_lurker w "C" (at_ 9 "9")
                    (delete_message "5") R Hl G)); reflexivity.
  - apply (proj1 (proj2 (events_without_identity trace_lurker w "C" (at_ 9 "9")
                           (leave_voice "r1") R Hl G))); reflexivity.
  - exact (proj2 (proj2 (events_without_identity trace_lurker w "C" (at_ 9 "9")
                           (webrtc_answer "A" "sdp") R Hl G))).
Defined.

(** C3 fails as stated: C is connected and has not joined; its
    [search_messages] is answered with [search_results], its [leave_voice]
    for a room A is in emits [voice_user_left] to that room, and its
    [webrtc_offer], [webrtc_answer] and [webrtc_ice_candidate] are relayed
    to A. *)
Lemma unguarded_events_emit :
  exists w, deliver_all trace_lurker initialWorld = Some w
    /\ In "C" (live w)
    /\ JsMap.get "C" (users (server w)) = None
    /\ map fst (snd (handle "C" (at_ 9 "9") (search_messages (Some "hello"))
                            (server w)))
       = [ToSocket "C"]
    /\ snd (handle "C" (at_ 9 "9") (leave_voice "r1") (server w))
       = [(ToRoom "voice_r1", Out.voice_user_left "C")]
    /\ snd (handle "C" (at_ 9 "9") (webrtc_offer "A" "sdp") (server w))
       = [(ToRoomExcept "A" "C", Out.webrtc_offer "sdp" "C")]
    /\ snd (handle "C" (at_ 9 "9") (webrtc_answer "A" "sdp") (server w))
       = [(ToRoomExcept "A" "C", Out.webrtc_answer "sdp" "C")]
    /\ snd (handle "C" (at_ 9 "9") (webrtc_ice_candidate "A" "ice") (server w))
       = [(ToRoomExcept "A" "C", Out.webrtc_ice_candidate "ice" "C")].
Proof.
  eexists; split; [vm_compute; reflexivity|]; vm_compute; auto 12.
Qed.

(** ** Deleting a message *)

Lemma NoDup_map_inj : forall A B (f : A -> B) l x y,
    NoDup (map f l) -> In x l -> In y l -> f x = f y -> x = y.
Proof.
  intros A B f l; induction l as [|z r IH]; simpl; intros x y ND Hx Hy E;
    [contradiction|].
  inversion ND as [|? ? Hn ND']; subst.
  destruct Hx as [<-|Hx], Hy as [<-|Hy]; try reflexivity.
  - exfalso; apply Hn; rewrite E; now apply in_map.
  - exfalso; apply Hn; rewrite <- E; now apply in_map.
  - now apply IH.
Qed.

Lemma splice1_without_id : forall messageId ms i,
    NoDup (map Message.id ms) ->
    JsArray.findIndex (has_id messageId) ms = Some i ->
    JsArray.splice1 i ms = without_id messageId ms.
Proof.
  intros messageId ms; induction ms as [|m r IH]; simpl; intros i ND F;
    [discriminate|].
  inversion ND as [|? ? Hn ND']; subst.
  unfold without_id; simpl.
  destruct (has_id messageId m) eqn:Hm; simpl.
  - injection F as <-; simpl.
    symmetry; apply filter_all_In.
    intros x Hx; unfold has_id in *; apply String.eqb_eq in Hm.
    destruct (String.eqb_spec (Message.id x) messageId) as [E|]; [|reflexivity].
    exfalso; apply Hn; rewrite Hm, <- E; now apply in_map.
  - destruct (JsArray.findIndex (has_id messageId) r) as [j|] eqn:Fr;
      [|discriminate].
    injection F as <-; simpl; f_equal; now apply IH.
Qed.

Lemma findIndex_without_id : forall messageId ms,
    JsArray.findIndex (has_id messageId) (without_id messageId ms) = None.
Proof.
  intros messageId ms; apply findIndex_None.
  intros x Hx; unfold without_id in Hx; apply filter_In in Hx.
  destruct Hx as [_ Hx]; now apply negb_true_iff in Hx.
Qed.

Lemma actor_isOwner_spec : forall sid s,
    actor_isOwner sid s = true
    <-> exists u, JsMap.get sid (users s) = Some u /\ User.isOwner u = true.
Proof.
  intros sid s; unfold actor_isOwner.
  destruct (JsMap.get sid (users s)) as [u|]; split.
  - intros H; now exists u.
  - intros [u' [E H]]; now injection E as ->.
  - discriminate.
  - intros [u' [E _]]; discriminate.
Qed.

Lemma delete_message_permitted : forall sid messageId s,
    NoDup (map Message.id (messages s)) ->
    may_delete sid messageId s ->
    on_delete_message sid messageId s
    = (set_messages (without_id messageId (messages s)) s,
       [(ToAll, Out.message_deleted messageId)]).
Proof.
  intros sid messageId s ND [m [Hin [Hid Hp]]]; unfold on_delete_message.
  assert (Pm : has_id messageId m = true)
    by (unfold has_id; now apply String.eqb_eq).
  destruct (findIndex_exists _ _ _ m Hin Pm) as [i F]; rewrite F.
  destruct (findIndex_Some _ _ _ _ F) as [m0 [N P0]]; rewrite N.
  assert (m0 = m).
  { apply NoDup_map_inj with (f := Message.id) (l := messages s);
      try assumption; [now apply nth_error_In in N|].
    unfold has_id in P0; apply String.eqb_eq in P0; congruence. }
  subst m0.
  assert (C : authored_by sid m || actor_isOwner sid s = true).
  { apply orb_true_iff; destruct Hp as [Hp|Hp];
      [left; now apply authored_by_spec
      | right; now apply actor_isOwner_spec]. }
  rewrite C; now rewrite (splice1_without_id messageId (messages s) i).
Qed.

Lemma delete_message_refused : forall sid messageId s,
    ~ may_delete sid messageId s ->
    on_delete_message sid messageId s = (s, []).
Proof.
  intros sid messageId s Hn; unfold on_delete_message.
  destruct (JsArray.findIndex (has_id messageId) (messages s)) as [i|] eqn:F;
    [|reflexivity].
  destruct (findIndex_Some _ _ _ _ F) as [m [N Pm]]; rewrite N.
  destruct (authored_by sid m || actor_isOwner sid s) eqn:C; [|reflexivity].
  exfalso; apply Hn; exists m; split; [now apply nth_error_In in N|].
  split; [unfold has_id in Pm; now apply String.eqb_eq in Pm|].
  apply orb_true_iff in C; destruct C as [C|C];
    [left; now apply authored_by_spec
    | right; now apply actor_isOwner_spec].
Qed.

(** C4: in every reachable state, [delete_message] removes the message
    with that id from the log and broadcasts [message_deleted] when the
    message exists and the actor authored it or the actor's record in
    [users] has [isOwner] set, and otherwise changes nothing and emits
    nothing; after a delete, a second [delete_message] of the same id, by
    whichever socket removed it or by any socket once it is removed,
    changes nothing and emits nothing. *)
Theorem delete_message_iff_permitted :
  forall tr w sid o messageId,
    deliver_all tr initialWorld = Some w ->
    (may_delete sid messageId (server w) ->
     handle sid o (delete_message messageId) (server w)
     = (set_messages (without_id messageId (messages (server w))) (server w),
        [(ToAll, Out.message_deleted messageId)]))
    /\ (~ may_delete sid messageId (server w) ->
        handle sid o (delete_message messageId) (server w) = (server w, []))
    /\ (forall sid2 o2,
           sid2 = sid \/ may_delete sid messageId (server w) ->
           handle sid2 o2 (delete_message messageId)
                  (fst (handle sid o (delete_message messageId) (server w)))
           = (fst (handle sid o (delete_message messageId) (server w)), [])).
Proof.
  intros tr w sid o messageId R.
  destruct (reachable_inv tr w R) as [[_ [_ [_ [_ ND]]]] _]; simpl.
  split; [now apply delete_message_permitted|].
  split; [now apply delete_message_refused|].
  intros sid2 o2 H.
  assert (Gone : may_delete sid messageId (server w) ->
                 on_delete_message sid2 messageId
                   (fst (on_delete_message sid messageId (server w)))
                 = (fst (on_delete_message sid messageId (server w)), [])).
  { intros P; rewrite (delete_message_permitted sid messageId (server w) ND P).
    simpl; unfold on_delete_message; simpl.
    now rewrite findIndex_without_id. }
  destruct H as [->|P]; [|now apply Gone].
  destruct (JsArray.findIndex (has_id messageId) (messages (server w)))
    as [i|] eqn:F.
  - destruct (findIndex_Some _ _ _ _ F) as [m [N Pm]].
    destruct (authored_by sid m || actor_isOwner sid (server w)) eqn:C.
    + apply Gone; exists m; split; [now apply nth_error_In in N|].
      split; [unfold has_id in Pm; now apply String.eqb_eq in Pm|].
      apply orb_true_iff in C; destruct C as [C|C];
        [left; now apply authored_by_spec
        | right; now apply actor_isOwner_spec].
    + unfold on_delete_message at 2 3; rewrite F, N, C; simpl.
      unfold on_delete_message; now rewrite F, N, C.
  - unfold on_delete_message at 2 3; rewrite F; simpl.
    unfold on_delete_message; now rewrite F.
Qed.

Lemma delete_message_iff_permitted_witness :
  map (fun m => (Message.id m, Message.userId m))
      (messages (server world_moderation))
  = [("2", None); ("4", None); ("5", Some "B")]
  /\ map Message.id
         (messages (fst (handle "A" (at_ 9 "9") (delete_message "5")
                                (server world_moderation))))
     = ["2"; "4"]
  /\ snd (handle "A" (at_ 9 "9") (delete_message "5") (server world_moderation))
     = [(ToAll, Out.message_deleted "5")]
  /\ handle "B" (at_ 10 "10") (delete_message "5")
            (fst (handle "A" (at_ 9 "9") (delete_message "5")
                         (server world_moderation)))
     = (fst (handle "A" (at_ 9 "9") (delete_message "5")
                    (server world_moderation)), [])
  /\ handle "B" (at_ 9 "9") (delete_message "2") (server world_moderation)
     = (server world_moderation, []).
Proof.
  assert (R : deliver_all trace_moderation initialWorld = Some world_moderation)
    by (vm_compute; reflexivity).
  destruct (delete_message_iff_permitted
              trace_moderation world_moderation "A" (at_ 9 "9") "5" R)
    as [Yes [_ Again]].
  destruct (delete_message_iff_permitted
              trace_moderation world_moderation "B" (at_ 9 "9") "2" R)
    as [_ [No _]].
  assert (P : may_delete "A" "5" (server world_moderation)).
  { exists (Message.mk "5" MessageType.user "hello" "bob" (Some "B")
                       (Some "#007bff") 5%Z (Some "{}") None None (Some [])
                       false None).
    split; [right; right; left; reflexivity|]; split; [reflexivity|].
    right; exists (User.mk "A" "alice" "#007bff" true 2%Z); now split. }
  split; [reflexivity|].
  rewrite (Yes P); split; [reflexivity|]; split; [reflexivity|]; split.
  - rewrite <- (Yes P); apply Again; now right.
  - apply No; intros [m [Hin [Hid [Hu|[u [Hg Ho]]]]]].
    + destruct Hin as [<-|[<-|[<-|[]]]]; discriminate.
    + vm_compute in Hg; injection Hg as <-; discriminate.
Defined.

(** * Further properties of the code *)

(** ** [sanitizeInput] and [processMessage] *)

Lemma trimStart_no_lead : forall s, starts_with_space (Text.trimStart s) = false.
Proof.
  induction s as [|c r IH]; simpl; [reflexivity|].
  destruct (Text.is_space c) eqn:E; [assumption | simpl; assumption].
Qed.

Lemma trimEnd_no_trail : forall s, ends_with_space (Text.trimEnd s) = false.
Proof.
  induction s as [|c r IH]; simpl; [reflexivity|].
  destruct (Text.trimEnd r) as [|d r'] eqn:E.
  - destruct (Text.is_space c) eqn:S; simpl; [reflexivity | assumption].
  - exact IH.
Qed.

Lemma trimEnd_keeps_lead : forall s,
    starts_with_space s = false -> starts_with_space (Text.trimEnd s) = false.
Proof.
  intros [|c r]; simpl; [reflexivity|]. intros H.
  destruct (Text.trimEnd r); [now rewrite H | assumption].
Qed.

Lemma has_char_trimStart : forall p s,
    has_char p s = false -> has_char p (Text.trimStart s) = false.
Proof.
  intros p s; induction s as [|c r IH]; simpl; [reflexivity|]. intros H.
  apply orb_false_iff in H; destruct H as [Hc Hr].
  destruct (Text.is_space c); [now apply IH | simpl; now rewrite Hc, Hr].
Qed.

Lemma has_char_trimEnd : forall p s,
    has_char p s = false -> has_char p (Text.trimEnd s) = false.
Proof.
  intros p s; induction s as [|c r IH]; simpl; [reflexivity|]. intros H.
  apply orb_false_iff in H; destruct H as [Hc Hr]; specialize (IH Hr).
  destruct (Text.trimEnd r) as [|d r'].
  - destruct (Text.is_space c); simpl; [reflexivity | now rewrite Hc].
  - cbn [has_char] in IH |- *; now rewrite Hc, IH.
Qed.

Lemma has_char_filter : forall p s,
    has_char p (Text.filter_chars (fun c => negb (p c)) s) = false.
Proof.
  intros p s; induction s as [|c r IH]; simpl; [reflexivity|].
  destruct (p c) eqn:E; simpl; [assumption | now rewrite E].
Qed.

Lemma filter_chars_fixed : forall p s,
    has_char p s = false -> Text.filter_chars (fun c => negb (p c)) s = s.
Proof.
  intros p s; induction s as [|c r IH]; simpl; [reflexivity|]. intros H.
  apply orb_false_iff in H; destruct H as [Hc Hr].
  now rewrite Hc, IH.
Qed.

Lemma trimStart_fixed : forall s,
    starts_with_space s = false -> Text.trimStart s = s.
Proof. intros [|c r]; simpl; [reflexivity|]. now intros ->. Qed.

Lemma trimEnd_cons : forall c r,
    Text.trimEnd (String c r)
    = match Text.trimEnd r with
      | EmptyString =>
          if Text.is_space c then EmptyString else String c EmptyString
      | r' => String c r'
      end.
Proof. reflexivity. Qed.

Lemma trimEnd_fixed : forall s,
    ends_with_space s = false -> Text.trimEnd s = s.
Proof.
  induction s as [|c r IH]; [reflexivity|]. intros H.
  destruct r as [|d r'].
  - simpl in *; now rewrite H.
  - rewrite trimEnd_cons, IH by exact H. reflexivity.
Qed.

Lemma sanitizeInput_sanitized : forall input, sanitized (sanitizeInput input).
Proof.
  intros [s|]; [|repeat split]. unfold sanitizeInput, Text.trim.
  split; [|split].
  - apply has_char_trimEnd, has_char_trimStart.
    exact (has_char_filter is_angle s).
  - apply trimEnd_keeps_lead, trimStart_no_lead.
  - apply trimEnd_no_trail.
Qed.

(** X1: whatever it is given, [sanitizeInput] returns a text with no
    ['<'] and no ['>'] in it and no white space at either end. *)
Theorem sanitizeInput_output_is_clean : forall input,
    has_char is_angle (sanitizeInput input) = false
    /\ starts_with_space (sanitizeInput input) = false
    /\ ends_with_space (sanitizeInput input) = false.
Proof. exact sanitizeInput_sanitized. Qed.

(** X2: [sanitizeInput] is idempotent: sanitizing its own output changes
    nothing. *)
Theorem sanitizeInput_idempotent : forall input,
    sanitizeInput (Some (sanitizeInput input)) = sanitizeInput input.
Proof.
  intros input; destruct (sanitizeInput_sanitized input) as [Ha [Hs He]].
  unfold sanitizeInput at 1, Text.trim.
  pose proof (filter_chars_fixed is_angle _ Ha) as F; unfold is_angle in F.
  rewrite F.
  now rewrite (trimStart_fixed _ Hs), (trimEnd_fixed _ He).
Qed.

Lemma includes_tail : forall q c r,
    Text.includes q (String c r) = false -> Text.includes q r = false.
Proof.
  intros q c r H; cbn [Text.includes] in H.
  now apply orb_false_iff in H.
Qed.

Lemma url_here_http : forall s,
    url_here s = true -> Text.startsWith "http" s = true.
Proof.
  intros s H; unfold url_here in H.
  apply orb_true_iff in H; destruct H as [H|H];
    apply andb_true_iff in H; destruct H as [H _];
    apply startsWith_spec in H; destruct H as [r ->]; reflexivity.
Qed.

(** X3: a text in which "http" does not occur comes out of
    [processMessage] as it went in. *)
Theorem processMessage_without_http :
  forall text,
    Text.includes "http" text = false -> processMessage text = text.
Proof.
  unfold processMessage; induction text as [|c r IH]; intros H;
    [reflexivity|].
  cbn [linkify].
  destruct (url_here (String c r)) eqn:U.
  - apply url_here_http in U. cbn [Text.includes] in H.
    apply orb_false_iff in H; destruct H as [H _]; congruence.
  - now rewrite IH by (now apply includes_tail in H).
Qed.

Lemma processMessage_without_http_witness :
  processMessage "hello, world" = "hello, world".
Proof. apply (processMessage_without_http "hello, world"); reflexivity. Defined.

Lemma linkify_in_url : forall r acc,
    has_char Text.is_space r = false ->
    linkify (Some acc) r = anchor (acc ++ r)%string.
Proof.
  induction r as [|c r IH]; intros acc H; simpl.
  - f_equal. induction acc as [|a acc IHa]; simpl; [reflexivity | now rewrite <- IHa].
  - simpl in H; apply orb_false_iff in H; destruct H as [Hc Hr].
    rewrite Hc, IH by assumption. f_equal.
    clear; induction acc as [|a acc IHa]; simpl; [reflexivity | now rewrite IHa].
Qed.

Lemma processMessage_at_a_match :
  forall text,
    url_here text = true ->
    has_char Text.is_space text = false ->
    processMessage text = anchor text.
Proof.
  intros [|c r] U H; [discriminate|].
  unfold processMessage; cbn [linkify]; rewrite U.
  simpl in H; apply orb_false_iff in H; destruct H as [_ Hr].
  now rewrite linkify_in_url.
Qed.

Lemma is_space_codes : forall c,
    Text.is_space c = true <-> In (nat_of_ascii c) white_space_codes.
Proof.
  intros c; unfold Text.is_space, white_space_codes.
  rewrite !orb_true_iff, andb_true_iff, !Nat.leb_le, !Nat.eqb_eq.
  simpl; lia.
Qed.

Lemma no_white_space_has_char : forall s,
    no_white_space s -> has_char Text.is_space s = false.
Proof.
  induction s as [|c r IH]; intros H; simpl; [reflexivity|].
  apply orb_false_iff; split.
  - destruct (Text.is_space c) eqn:E; [|reflexivity].
    apply is_space_codes in E; exfalso.
    apply (H c); [now left | assumption].
  - apply IH; intros d Hd; apply H; now right.
Qed.

(** X4: a text that is one URL (http:// or https:// followed by at least
    one character, none of them white space) comes out of [processMessage]
    as the anchor around that URL. *)
Theorem processMessage_of_a_url :
  forall scheme rest,
    scheme = "http://" \/ scheme = "https://" ->
    rest <> "" ->
    no_white_space rest ->
    processMessage (scheme ++ rest)%string = anchor (scheme ++ rest)%string.
Proof.
  intros scheme rest Hs Hr Hw.
  pose proof (no_white_space_has_char rest Hw) as Hc.
  destruct rest as [|c r]; [congruence|].
  simpl in Hc; apply orb_false_iff in Hc; destruct Hc as [Hc Hr'].
  apply processMessage_at_a_match.
  - unfold url_here, nonspace_at.
    destruct Hs as [-> | ->]; simpl; now rewrite Hc.
  - destruct Hs as [-> | ->]; simpl; now rewrite Hc, Hr'.
Qed.

Lemma processMessage_of_a_url_witness :
  processMessage "https://example.org/a?b=1" = anchor "https://example.org/a?b=1".
Proof.
  apply (processMessage_of_a_url "https://" "example.org/a?b=1").
  - now right.
  - discriminate.
  - intros c Hc; vm_compute in Hc.
    repeat (destruct Hc as [<-|Hc]; [vm_compute; intuition discriminate|]).
    contradiction.
Defined.

(** ** The upload filter *)

Lemma includes_inside : forall w x pre post,
    Text.includes w x = true ->
    Text.includes w (pre ++ x ++ post)%string = true.
Proof.
  intros w x pre post H; apply includes_spec in H.
  destruct H as [a [b ->]]; apply includes_spec.
  exists (pre ++ a)%string, (b ++ post)%string.
  clear; induction pre as [|c pre IH]; simpl.
  - induction a as [|c a IHa]; simpl; [|now rewrite IHa].
    induction w as [|c w IHw]; simpl; [reflexivity | now rewrite IHw].
  - now rewrite IH.
Qed.

Lemma allowedTypes_test_inside : forall x pre post,
    allowedTypes_test x = true ->
    allowedTypes_test (pre ++ x ++ post)%string = true.
Proof.
  intros x pre post H; unfold allowedTypes_test in *.
  apply existsb_exists in H; destruct H as [w [Hw Hi]].
  apply existsb_exists; exists w; split; [assumption|].
  now apply includes_inside.
Qed.

(** X5: the mimetype test of the upload filter is not anchored: a file
    the filter accepts is still accepted, under the same name, when
    anything is put before or after its mimetype. *)
Theorem fileFilter_is_not_anchored :
  forall path_extname originalname mimetype_ p q,
    fileFilter path_extname originalname mimetype_ = inl tt ->
    fileFilter path_extname originalname (p ++ mimetype_ ++ q)%string = inl tt.
Proof.
  intros ext name m p q; unfold fileFilter.
  destruct (allowedTypes_test m) eqn:Hm; [|discriminate].
  destruct (allowedTypes_test (Text.toLowerCase (ext name))) eqn:He;
    [|discriminate].
  intros _.
  now rewrite (allowedTypes_test_inside m p q Hm).
Qed.

Lemma fileFilter_is_not_anchored_witness :
  fileFilter extname_of_photo "photo.png" "image/png" = inl tt
  /\ fileFilter extname_of_photo "photo.png"
                "application/x-msdownload; image/png" = inl tt.
Proof.
  split; [reflexivity|].
  apply (fileFilter_is_not_anchored
           extname_of_photo "photo.png" "image/png"
           "application/x-msdownload; " ""); reflexivity.
Defined.

(** ** The message log *)

(** X6: in every world the transport can produce, the ids of the log are
    pairwise distinct and each is a uuid that was handed out. *)
Theorem message_ids_distinct :
  forall tr w,
    deliver_all tr initialWorld = Some w ->
    NoDup (map Message.id (messages (server w)))
    /\ forall m, In m (messages (server w)) -> In (Message.id m) (issued w).
Proof.
  intros tr w R; destruct (reachable_inv tr w R) as [[_ [_ [_ [W4 W5]]]] _].
  now split.
Qed.

Lemma message_ids_distinct_witness :
  NoDup (map Message.id (messages (server world_lurker)))
  /\ forall m, In m (messages (server world_lurker)) ->
               In (Message.id m) (issued world_lurker).
Proof.
  apply (message_ids_distinct trace_lurker world_lurker); reflexivity.
Defined.

Lemma update_where : forall messageId (f : Message.t -> Message.t) ms i,
    NoDup (map Message.id ms) ->
    JsArray.findIndex (has_id messageId) ms = Some i ->
    JsArray.update i f ms
    = map (fun m => if has_id messageId m then f m else m) ms.
Proof.
  intros messageId f ms; induction ms as [|m r IH]; simpl; intros i ND F;
    [discriminate|].
  inversion ND as [|? ? Hn ND']; subst.
  destruct (has_id messageId m) eqn:Hm.
  - injection F as <-; simpl; f_equal.
    symmetry; erewrite map_ext_in; [apply map_id|].
    intros x Hx; simpl; unfold has_id in *; apply String.eqb_eq in Hm.
    destruct (String.eqb_spec (Message.id x) messageId) as [E|]; [|reflexivity].
    exfalso; apply Hn; rewrite Hm, <- E; now apply in_map.
  - destruct (JsArray.findIndex (has_id messageId) r) as [j|] eqn:Fr;
      [|discriminate].
    injection F as <-; simpl; f_equal; now apply IH.
Qed.

(** X7: in every reachable world, [edit_message] by the socket that wrote
    the message rewrites exactly the message of that id, in place (content
    sanitized and linkified, [edited] set, [editedAt] stamped; an empty new
    content is stored as it is), and broadcasts [message_edited]; from any
    other socket, the owner included, and for an unknown id it changes
    nothing and emits nothing. *)
Theorem edit_message_only_by_author :
  forall tr w sid o messageId newContent,
    deliver_all tr initialWorld = Some w ->
    ((exists m, In m (messages (server w))
                /\ Message.id m = messageId
                /\ Message.userId m = Some sid) ->
     handle sid o (edit_message messageId newContent) (server w)
     = (set_messages
          (edit_where messageId (processMessage (sanitizeInput newContent))
                      (date1 o) (messages (server w)))
          (server w),
        [(ToAll,
          Out.message_edited messageId
            (processMessage (sanitizeInput newContent)) true (date1 o))]))
    /\ (~ (exists m, In m (messages (server w))
                     /\ Message.id m = messageId
                     /\ Message.userId m = Some sid) ->
        handle sid o (edit_message messageId newContent) (server w)
        = (server w, [])).
Proof.
  intros tr w sid o messageId newContent R.
  destruct (reachable_inv tr w R) as [[_ [_ [_ [_ ND]]]] _]; simpl.
  unfold on_edit_message; split.
  - intros [m [Hin [Hid Hu]]].
    assert (Pm : has_id messageId m = true)
      by (unfold has_id; now apply String.eqb_eq).
    destruct (findIndex_exists _ _ _ m Hin Pm) as [i F]; rewrite F.
    destruct (findIndex_Some _ _ _ _ F) as [m0 [N P0]]; rewrite N.
    assert (m0 = m).
    { apply NoDup_map_inj with (f := Message.id) (l := messages (server w));
        try assumption; [now apply nth_error_In in N|].
      unfold has_id in P0; apply String.eqb_eq in P0; congruence. }
    subst m0. apply authored_by_spec in Hu; rewrite Hu.
    unfold edit_where; now rewrite (update_where messageId _ _ i ND F).
  - intros Hn.
    destruct (JsArray.findIndex (has_id messageId) (messages (server w)))
      as [i|] eqn:F; [|reflexivity].
    destruct (findIndex_Some _ _ _ _ F) as [m [N Pm]]; rewrite N.
    destruct (authored_by sid m) eqn:A; [|reflexivity].
    exfalso; apply Hn; exists m; split; [now apply nth_error_In in N|].
    split; [unfold has_id in Pm; now apply String.eqb_eq in Pm|].
    now apply authored_by_spec.
Qed.

Lemma edit_message_only_by_author_witness :
  map Message.content
      (messages (fst (handle "A" (at_ 9 "9") (edit_message "5" (Some " <> "))
                             (server world_lurker))))
  = ["alice joined the chat"; ""]
  /\ handle "C" (at_ 9 "9") (edit_message "5" (Some "mine now"))
            (server world_lurker)
     = (server world_lurker, []).
Proof.
  assert (R : deliver_all trace_lurker initialWorld = Some world_lurker)
    by reflexivity.
  destruct (edit_message_only_by_author
              trace_lurker world_lurker "A" (at_ 9 "9") "5" (Some " <> ") R)
    as [Yes _].
  destruct (edit_message_only_by_author
              trace_lurker world_lurker "C" (at_ 9 "9") "5" (Some "mine now") R)
    as [_ No].
  split.
  - rewrite Yes; [reflexivity|].
    exists (Message.mk "5" MessageType.user "hello" "alice" (Some "A")
                       (Some "#007bff") 5%Z (Some "{}") None None (Some [])
                       false None).
    split; [right; left; reflexivity|]; split; reflexivity.
  - apply No; intros [m [Hin [Hid Hu]]].
    destruct Hin as [<-|[<-|[]]]; discriminate.
Defined.

(** X8: a handler leaves the ids of the log in their order: it keeps
    them, appends the uuid of the invocation ([user_join] always;
    [change_username], [send_message] and [disconnect] when they act), or,
    for [delete_message] only, takes one id out. *)
Theorem log_ids_step :
  forall sid o ev s,
    match ev with
    | user_join _ =>
        map Message.id (messages (fst (handle sid o ev s)))
        = map Message.id (messages s) ++ [uuid o]
    | change_username _ | send_message _ | disconnect =>
        map Message.id (messages (fst (handle sid o ev s)))
        = map Message.id (messages s)
        \/ map Message.id (messages (fst (handle sid o ev s)))
           = map Message.id (messages s) ++ [uuid o]
    | delete_message _ =>
        map Message.id (messages (fst (handle sid o ev s)))
        = map Message.id (messages s)
        \/ exists i,
            map Message.id (messages (fst (handle sid o ev s)))
            = JsArray.splice1 i (map Message.id (messages s))
    | _ =>
        map Message.id (messages (fst (handle sid o ev s)))
        = map Message.id (messages s)
    end.
Proof.
  intros sid o ev s.
  destruct ev; try (now rewrite messages_frame by exact I);
    simpl; unfold_handlers; repeat break_match; simpl;
    try reflexivity;
    try (left; reflexivity);
    try (now rewrite map_app);
    try (right; now rewrite map_app);
    try (now apply map_update);
    try (right; eexists; now apply map_splice1).
Qed.

(** ** Voice rooms, again *)

Lemma JsSet_add_member : forall x s, JsSet.has x s = true -> JsSet.add x s = s.
Proof. intros x s H; unfold JsSet.add; now rewrite H. Qed.

Lemma JsSet_has_add : forall x s, JsSet.has x (JsSet.add x s) = true.
Proof. intros x s; apply JsSet_has_In, JsSet_In_add; now left. Qed.

(** X9: joining a voice room twice gives the state of joining it once:
    the second [join_voice] of the same room by the same socket changes
    nothing (it is still announced). *)
Theorem join_voice_twice :
  forall sid o o' roomId s,
    fst (handle sid o' (join_voice roomId)
                (fst (handle sid o (join_voice roomId) s)))
    = fst (handle sid o (join_voice roomId) s).
Proof.
  intros sid o o' roomId s; simpl.
  destruct (on_join_voice_rooms sid roomId s) as [E|[Hk E]].
  - assert (E1 : fst (on_join_voice sid roomId s) = s).
    { revert E; unfold on_join_voice.
      destruct (negb (allowVoiceChat (serverSettings s))); [reflexivity|].
      destruct (JsMap.get sid (users s)); [|reflexivity]. simpl.
      intros E; rewrite E; apply set_voiceRooms_same. }
    now rewrite E1, E1.
  - set (s1 := fst (on_join_voice sid roomId s)) in *.
    assert (Hs1 : s1 = set_voiceRooms (voiceRooms s1) s).
    { unfold s1, on_join_voice.
      destruct (negb (allowVoiceChat (serverSettings s))); simpl;
        [now rewrite set_voiceRooms_same|].
      destruct (JsMap.get sid (users s)); simpl;
        [reflexivity | now rewrite set_voiceRooms_same]. }
    destruct (on_join_voice_rooms sid roomId s1) as [E2|[_ E2]].
    + revert E2; unfold on_join_voice at 1 2.
      destruct (negb (allowVoiceChat (serverSettings s1))); [reflexivity|].
      destruct (JsMap.get sid (users s1)); [|reflexivity]. simpl.
      intros E2; rewrite E2; apply set_voiceRooms_same.
    + assert (E3 : voiceRooms (fst (on_join_voice sid roomId s1)) = voiceRooms s1).
      { rewrite E2, E, get_set_same, set_set.
        now rewrite JsSet_add_member by apply JsSet_has_add. }
      revert E3; unfold on_join_voice at 1 2.
      destruct (negb (allowVoiceChat (serverSettings s1))); [reflexivity|].
      destruct (JsMap.get sid (users s1)); [|reflexivity]. simpl.
      intros E3; rewrite E3; apply set_voiceRooms_same.
Qed.

Lemma delete_set_absent : forall V (m : JsMap.t V) k v,
    JsMap.get k m = None -> JsMap.delete k (JsMap.set k v m) = m.
Proof.
  induction m as [|[k0 v0] r IH]; simpl; intros k v G.
  - now rewrite String.eqb_refl.
  - destruct (String.eqb_spec k k0) as [->|N]; [discriminate|]. simpl.
    destruct (String.eqb_spec k k0); [contradiction|]. now rewrite IH.
Qed.

Lemma JsSet_delete_push : forall x s,
    JsSet.has x s = false -> JsSet.delete x (s ++ [x]) = s.
Proof.
  intros x s H; unfold JsSet.delete; rewrite filter_app; simpl.
  rewrite String.eqb_refl; simpl; rewrite app_nil_r.
  exact (JsSet_delete_absent x s H).
Qed.

Lemma join_then_leave : forall sid roomId s u,
    rooms_nonempty (voiceRooms s) ->
    allowVoiceChat (serverSettings s) = true ->
    JsMap.get sid (users s) = Some u ->
    (forall room, JsMap.get roomId (voiceRooms s) = Some room ->
                  JsSet.has sid room = false) ->
    fst (on_leave_voice sid roomId (fst (on_join_voice sid roomId s))) = s.
Proof.
  intros sid roomId s u Inv A G Hn.
  assert (E : fst (on_join_voice sid roomId s)
              = set_voiceRooms
                  (JsMap.set roomId
                     (JsSet.add sid match JsMap.get roomId (voiceRooms s) with
                                    | Some r => r
                                    | None => []
                                    end) (voiceRooms s)) s).
  { unfold on_join_voice; rewrite A, G; simpl.
    now rewrite <- (join_voice_rooms sid roomId (voiceRooms s)). }
  rewrite E; unfold on_leave_voice; simpl; rewrite get_set_same, set_set.
  destruct (JsMap.get roomId (voiceRooms s)) as [room|] eqn:Gr.
  - specialize (Hn room eq_refl).
    unfold JsSet.add; rewrite Hn, (JsSet_delete_push _ _ Hn).
    destruct (JsSet.size room =? 0) eqn:Z.
    + apply size_zero in Z; apply get_In in Gr.
      exfalso; now apply (Inv roomId room).
    + simpl; rewrite (set_same _ _ _ _ Gr).
      now destruct s.
  - simpl; rewrite String.eqb_refl; simpl.
    rewrite (delete_set_absent _ _ _ _ Gr); now destruct s.
Qed.

(** X10: in every reachable state with voice chat allowed, a registered
    user who is not in a room and joins it and then leaves it puts the
    state back as it was: a room created by the join is removed again, an
    existing room gets its member list back. *)
Theorem join_voice_then_leave_voice :
  forall tr sid o o' roomId u,
    allowVoiceChat (serverSettings (run tr initialState)) = true ->
    JsMap.get sid (users (run tr initialState)) = Some u ->
    (forall room,
        JsMap.get roomId (voiceRooms (run tr initialState)) = Some room ->
        JsSet.has sid room = false) ->
    fst (handle sid o' (leave_voice roomId)
                (fst (handle sid o (join_voice roomId) (run tr initialState))))
    = run tr initialState.
Proof.
  intros tr sid o o' roomId u A G Hn; simpl.
  apply join_then_leave with u; try assumption.
  apply rooms_nonempty_run.
Qed.

Lemma join_voice_then_leave_voice_witness :
  fst (handle "A" (at_ 7 "7") (leave_voice "r1")
              (fst (handle "A" (at_ 6 "6") (join_voice "r1") before_succession)))
  = before_succession
  /\ fst (handle "A" (at_ 7 "7") (leave_voice "r2")
                 (fst (handle "A" (at_ 6 "6") (join_voice "r2") before_succession)))
     = before_succession.
Proof.
  split.
  - apply (join_voice_then_leave_voice
             (removelast trace_succession) "A" (at_ 6 "6") (at_ 7 "7") "r1"
             (User.mk "A" "alice" "#007bff" true 2%Z));
      [reflexivity | reflexivity|].
    intros room H; injection H as <-; reflexivity.
  - apply (join_voice_then_leave_voice
             (removelast trace_succession) "A" (at_ 6 "6") (at_ 7 "7") "r2"
             (User.mk "A" "alice" "#007bff" true 2%Z));
      [reflexivity | reflexivity|].
    intros room H; discriminate.
Defined.

(** X11: when a registered socket disconnects, its id is left neither in
    [users] nor in the member set of any voice room. *)
Theorem disconnect_removes_the_socket :
  forall sid o s u,
    JsMap.get sid (users s) = Some u ->
    JsMap.get sid (users (fst (handle sid o disconnect s))) = None
    /\ forall roomId room,
        In (roomId, room) (voiceRooms (fst (handle sid o disconnect s))) ->
        ~ In sid room.
Proof.
  intros sid o s u G; simpl; split.
  - apply get_None; rewrite keys_disconnect; tauto.
  - destruct (on_disconnect_shape sid o s) as [E|[u' [_ [E _]]]].
    + exfalso; revert E; unfold on_disconnect; rewrite G.
      destruct (purge sid (voiceRooms s)); repeat break_match;
        intros E; injection E as E _;
        apply (f_equal (fun x => List.length (messages x))) in E; simpl in E;
        rewrite length_app in E; simpl in E; lia.
    + rewrite E; intros roomId room H Hin.
      apply purge_In in H; destruct H as [room0 [_ [_ Sub]]].
      destruct (Sub sid Hin); congruence.
Qed.

Lemma disconnect_removes_the_socket_witness :
  JsMap.get "B" (users after_succession) <> None
  /\ JsMap.get "B" (users (fst (handle "B" (at_ 7 "7") disconnect after_succession)))
     = None
  /\ forall roomId room,
      In (roomId, room)
         (voiceRooms (fst (handle "B" (at_ 7 "7") disconnect after_succession))) ->
      ~ In "B" room.
Proof.
  split; [discriminate|].
  apply (disconnect_removes_the_socket
           "B" (at_ 7 "7") after_succession
           (User.mk "B" "bob" "#007bff" true 4%Z)); reflexivity.
Defined.

(** X12: in every world the transport can produce, every member of a
    voice room is a connected socket with an entry in [users]. *)
Theorem voice_members_are_registered :
  forall tr w roomId room a,
    deliver_all tr initialWorld = Some w ->
    In (roomId, room) (voiceRooms (server w)) ->
    In a room ->
    In a (live w) /\ JsMap.get a (users (server w)) <> None.
Proof.
  intros tr w roomId room a R Hr Ha.
  destruct (reachable_inv tr w R) as [[W1 _] Es].
  assert (Hk : In a (JsMap.keys (users (server w)))).
  { rewrite Es in *; exact (members_registered_run tr roomId room a Hr Ha). }
  split; [now apply W1|]. intros N; apply get_None in N; contradiction.
Qed.

Lemma voice_members_are_registered_witness :
  In "A" (live world_lurker)
  /\ JsMap.get "A" (users (server world_lurker)) <> None.
Proof.
  apply (voice_members_are_registered trace_lurker world_lurker "r1" ["A"] "A");
    [reflexivity | now left | now left].
Defined.

(** ** The users map *)

(** Where an entry of [users] after a handler comes from. *)
Lemma users_handle_entries : forall sid o ev s k u',
    In (k, u') (users (fst (handle sid o ev s))) ->
    (exists u, In (k, u) (users s)
               /\ User.id u' = User.id u
               /\ (User.username u' = User.username u
                   \/ exists x, User.username u'
                                = str_or (sanitizeInput x) "Anonymous"))
    \/ (k = sid /\ User.id u' = sid
        /\ exists x, User.username u' = str_or (sanitizeInput x) "Anonymous").
Proof.
  intros sid o ev s k u'.
  assert (Old : In (k, u') (users s) ->
                (exists u, In (k, u) (users s)
                           /\ User.id u' = User.id u
                           /\ (User.username u' = User.username u
                               \/ exists x, User.username u'
                                            = str_or (sanitizeInput x) "Anonymous"))
                \/ (k = sid /\ User.id u' = sid
                    /\ exists x, User.username u'
                                 = str_or (sanitizeInput x) "Anonymous"))
    by (intros H; left; exists u'; auto).
  destruct ev; try (rewrite users_frame by exact I; exact Old); simpl.
  - (* user_join *)
    unfold on_user_join; simpl; intros H; apply In_set in H.
    destruct H as [[-> ->]|H]; [|now apply Old].
    right; split; [reflexivity|]; split; [reflexivity|]; simpl; eauto.
  - (* change_username *)
    unfold on_change_username.
    destruct (JsMap.get sid (users s)) as [u|] eqn:G; simpl; [|exact Old].
    intros H; apply In_set in H; destruct H as [[-> ->]|H]; [|now apply Old].
    left; exists u; split; [now apply get_In|]; split; [reflexivity|].
    right; simpl; eauto.
  - (* change_bubble_color *)
    unfold on_change_bubble_color.
    destruct (JsMap.get sid (users s)) as [u|] eqn:G; simpl; [|exact Old].
    intros H; apply In_set in H; destruct H as [[-> ->]|H]; [|now apply Old].
    left; exists u; split; [now apply get_In|]; split; [reflexivity|].
    now left.
  - (* disconnect *)
    unfold on_disconnect.
    destruct (JsMap.get sid (users s)) as [u|] eqn:G; [|exact Old].
    destruct (purge sid (voiceRooms s)) as [rooms1 out].
    assert (Del : forall k1 u1, In (k1, u1) (JsMap.delete sid (users s)) ->
                                In (k1, u1) (users s))
      by (intros k1 u1 H; now apply In_delete in H).
    destruct (User.isOwner u && (0 <? List.length (JsMap.delete sid (users s))));
      simpl; [|intros H; now apply Old, Del].
    destruct (JsMap.delete sid (users s)) as [|[k0 newOwner] rest] eqn:D; simpl;
      [intros []|].
    intros [E|H]; [|apply Old, Del; now right].
    injection E as <- <-; left; exists newOwner; split;
      [apply Del; now left | split; [reflexivity | now left]].
Qed.

Lemma NoDup_keys_handle : forall sid o ev s,
    NoDup (JsMap.keys (users s)) ->
    NoDup (JsMap.keys (users (fst (handle sid o ev s)))).
Proof.
  intros sid o ev s ND.
  destruct ev; try (now rewrite users_frame by exact I); simpl.
  - unfold on_user_join; simpl; now apply NoDup_keys_set.
  - unfold on_change_username; destruct (JsMap.get sid (users s)); simpl;
      [now apply NoDup_keys_set | assumption].
  - unfold on_change_bubble_color; destruct (JsMap.get sid (users s)); simpl;
      [now apply NoDup_keys_set | assumption].
  - destruct (on_disconnect_shape sid o s) as [E|[u [_ [_ K]]]].
    + now rewrite E.
    + rewrite K; now apply NoDup_keys_delete.
Qed.

Lemma users_keyed_handle : forall sid o ev s,
    users_keyed s -> users_keyed (fst (handle sid o ev s)).
Proof.
  intros sid o ev s [ND Hid]; split; [now apply NoDup_keys_handle|].
  intros k u' H; apply users_handle_entries in H.
  destruct H as [[u [Hin [E _]]]|[-> [E _]]]; [|assumption].
  rewrite E; now apply Hid.
Qed.

(** X13: after every sequence of events the keys of [users] are pairwise
    distinct and every record is stored under its own [id], so
    [users_update] never lists an id twice. *)
Theorem users_are_keyed_by_id :
  forall tr,
    NoDup (map User.id (JsMap.values (users (run tr initialState))))
    /\ forall k u, In (k, u) (users (run tr initialState)) -> User.id u = k.
Proof.
  intros tr.
  assert (Inv : users_keyed (run tr initialState)).
  { apply (run_invariant users_keyed).
    - intros; now apply users_keyed_handle.
    - split; simpl; [constructor | intros ? ? []]. }
  destruct Inv as [ND Hid]; split; [|assumption].
  unfold JsMap.values; rewrite map_map.
  unfold JsMap.keys in ND.
  erewrite map_ext_in; [exact ND|].
  intros [k u] H; simpl; now apply Hid.
Qed.

Lemma str_or_sanitized : forall x,
    str_or (sanitizeInput x) "Anonymous" <> ""
    /\ sanitized (str_or (sanitizeInput x) "Anonymous").
Proof.
  intros x; unfold str_or.
  destruct (sanitizeInput x) as [|c r] eqn:E; simpl.
  - split; [discriminate | repeat split].
  - split; [discriminate|]. rewrite <- E; apply sanitizeInput_sanitized.
Qed.

Lemma usernames_ok_handle : forall sid o ev s,
    usernames_ok s -> usernames_ok (fst (handle sid o ev s)).
Proof.
  intros sid o ev s Inv k u' H; apply users_handle_entries in H.
  destruct H as [[u [Hin [_ [E|[x E]]]]]|[_ [_ [x E]]]]; rewrite E.
  - now apply Inv with k.
  - apply str_or_sanitized.
  - apply str_or_sanitized.
Qed.

(** X14: after every sequence of events every registered username is
    non-empty, has no ['<'] or ['>'] in it and no white space at either
    end: a name that sanitizes to nothing is replaced by "Anonymous", at
    [user_join] and at [change_username] alike. *)
Theorem usernames_are_sanitized :
  forall tr k u,
    In (k, u) (users (run tr initialState)) ->
    User.username u <> ""
    /\ has_char is_angle (User.username u) = false
    /\ starts_with_space (User.username u) = false
    /\ ends_with_space (User.username u) = false.
Proof.
  intros tr.
  apply (run_invariant usernames_ok).
  - intros; now apply usernames_ok_handle.
  - intros ? ? [].
Qed.

Lemma usernames_are_sanitized_witness :
  "Anonymous" <> ""
  /\ has_char is_angle "Anonymous" = false
  /\ starts_with_space "Anonymous" = false
  /\ ends_with_space "Anonymous" = false.
Proof.
  apply (usernames_are_sanitized
           trace_namesakes "B" (User.mk "B" "Anonymous" "#007bff" false 4%Z)).
  right; left; reflexivity.
Defined.

(** ** Settings and ownership, again *)

(** X15: [maxMessageLength] and [allowAttachments] are stored and sent
    to clients but read by no message handler: with any other values for
    the two, [send_message] and [edit_message] store and emit the same. *)
Theorem limits_are_not_enforced :
  forall sid o s len att messageData messageId newContent,
    handle sid o (send_message messageData) (with_limits len att s)
    = (with_limits len att (fst (handle sid o (send_message messageData) s)),
       snd (handle sid o (send_message messageData) s))
    /\ handle sid o (edit_message messageId newContent) (with_limits len att s)
       = (with_limits len att
            (fst (handle sid o (edit_message messageId newContent) s)),
          snd (handle sid o (edit_message messageId newContent) s)).
Proof.
  intros sid o s len att md mid nc; split; simpl;
    unfold on_send_message, on_edit_message, with_limits; simpl;
    repeat break_match; reflexivity.
Qed.

Lemma no_owner_entries : forall s,
    owners s = [] <-> forall k u, In (k, u) (users s) -> User.isOwner u = false.
Proof.
  intros s; unfold owners, JsMap.values.
  induction (users s) as [|[k u] r IH]; simpl.
  - split; [intros _ ? ? [] | reflexivity].
  - destruct (User.isOwner u) eqn:B; split.
    + discriminate.
    + intros H; specialize (H k u (or_introl eq_refl)); congruence.
    + intros E k' u' [H|H]; [injection H as <- <-; assumption|].
      now apply (proj1 IH E k').
    + intros H; apply IH; intros k' u' H'; apply H with k'; now right.
Qed.

Lemma ownerless_deliver : forall w o i w',
    ownerless w o -> deliver w i = Some w' ->
    ownerless w' o /\ serverSettings (server w') = serverSettings (server w).
Proof.
  intros w o i w' [Ho [Hseen [Hlive Hnone]]] D; unfold deliver in D.
  destruct (admissible w i) eqn:Adm; [|discriminate].
  injection D as <-; unfold admissible in Adm.
  apply andb_true_iff in Adm; destruct Adm as [_ Sock].
  destruct i as [sid oc ev]; unfold ownerless, step; simpl in *.
  pose proof (proj1 (no_owner_entries (server w)) Hnone) as Hfalse.
  assert (Keep : forall s',
             serverSettings s' = serverSettings (server w) ->
             (forall k u, In (k, u) (users s') -> User.isOwner u = false) ->
             ev <> connection -> ev <> disconnect ->
             (ownerId (serverSettings s') = Some o
              /\ In o match ev with connection => sid :: seen w | _ => seen w end
              /\ ~ In o match ev with
                        | connection => sid :: live w
                        | disconnect => JsSet.delete sid (live w)
                        | _ => live w
                        end
              /\ owners s' = [])
             /\ serverSettings s' = serverSettings (server w)).
  { intros s' Es Hu N1 N2; split; [|assumption].
    rewrite Es; split; [assumption|].
    split; [destruct ev; try assumption; congruence|].
    split; [destruct ev; try assumption; congruence|].
    now apply no_owner_entries. }
  assert (Same : forall s', users s' = users (server w) ->
                   forall k u, In (k, u) (users s') -> User.isOwner u = false)
    by (intros s' E; rewrite E; exact Hfalse).
  destruct ev;
    try (apply Keep;
         [ apply settings_frame; exact I
         | apply Same, users_frame; exact I
         | discriminate | discriminate ]).
  - (* connection *)
    simpl; unfold on_connection; rewrite Ho; simpl.
    split; [|reflexivity]. split; [assumption|].
    split; [now right|]. split; [|assumption].
    intros [<-|H]; [|contradiction].
    apply negb_true_iff, mem_false in Sock; contradiction.
  - (* user_join *)
    apply Keep; try discriminate; [reflexivity|].
    simpl; unfold on_user_join; simpl; intros k u H.
    apply In_set in H; destruct H as [[_ ->]|H]; [|now apply Hfalse with k].
    simpl; unfold is_ownerId; rewrite Ho.
    destruct (String.eqb_spec sid o) as [<-|]; [|reflexivity].
    apply mem_In in Sock; contradiction.
  - (* change_username *)
    apply Keep; try discriminate; [apply settings_frame; exact I|].
    simpl; unfold on_change_username.
    destruct (JsMap.get sid (users (server w))) as [u0|] eqn:G; simpl;
      [|exact Hfalse].
    intros k u H; apply In_set in H; destruct H as [[_ ->]|H];
      [|now apply Hfalse with k].
    simpl; apply get_In in G; now apply Hfalse with sid.
  - (* change_bubble_color *)
    apply Keep; try discriminate; [apply settings_frame; exact I|].
    simpl; unfold on_change_bubble_color.
    destruct (JsMap.get sid (users (server w))) as [u0|] eqn:G; simpl;
      [|exact Hfalse].
    intros k u H; apply In_set in H; destruct H as [[_ ->]|H];
      [|now apply Hfalse with k].
    simpl; apply get_In in G; now apply Hfalse with sid.
  - (* update_server_settings *)
    assert (E : on_update_server_settings sid newSettings (server w)
                = (server w, [])).
    { unfold on_update_server_settings.
      destruct (JsMap.get sid (users (server w))) as [u0|] eqn:G;
        [|reflexivity].
      apply get_In in G; now rewrite (Hfalse sid u0 G). }
    apply Keep; try discriminate; simpl; rewrite E; [reflexivity | exact Hfalse].
  - (* disconnect *)
    simpl; unfold on_disconnect.
    destruct (JsMap.get sid (users (server w))) as [u0|] eqn:G.
    + destruct (purge sid (voiceRooms (server w))) as [rooms1 out].
      apply get_In in G; rewrite (Hfalse sid u0 G); simpl.
      split; [|reflexivity]. split; [assumption|]. split; [assumption|].
      split; [intros H; apply JsSet_In_delete in H; tauto|].
      apply no_owner_entries; simpl; intros k u H.
      apply In_delete in H; now apply Hfalse with k.
    + simpl; split; [|reflexivity]. split; [assumption|]. split; [assumption|].
      split; [intros H; apply JsSet_In_delete in H; tauto | assumption].
Qed.

(** X16: once [ownerId] names a socket that has disconnected and no
    registered user has [isOwner] set (as after the last user left),
    nothing the transport can deliver brings an owner back: no later user
    gets [isOwner], and the settings never change again. *)
Theorem no_owner_is_for_good :
  forall tr w o w',
    ownerless w o ->
    deliver_all tr w = Some w' ->
    owners (server w') = []
    /\ serverSettings (server w') = serverSettings (server w).
Proof.
  induction tr as [|i r IH]; simpl; intros w o w' H D.
  - injection D as <-; destruct H as [_ [_ [_ H]]]; now split.
  - destruct (deliver w i) as [w1|] eqn:D1; [|discriminate].
    destruct (ownerless_deliver w o i w1 H D1) as [H1 E1].
    destruct (IH w1 o w' H1 D) as [Hn E]; split; [assumption | congruence].
Qed.

Lemma no_owner_is_for_good_witness :
  exists w', deliver_all trace_after_owner_left world_stale_owner = Some w'
    /\ JsMap.keys (users (server w')) = ["B"]
    /\ owners (server w') = []
    /\ serverSettings (server w') = serverSettings (server world_stale_owner).
Proof.
  destruct (deliver_all trace_after_owner_left world_stale_owner) as [w'|] eqn:D;
    [|vm_compute in D; discriminate].
  exists w'; split; [reflexivity|]; split.
  - vm_compute in D; injection D as <-; reflexivity.
  - apply (no_owner_is_for_good trace_after_owner_left world_stale_owner "A" w');
      [|exact D].
    split; [reflexivity|]; split; [now left|]; split; [intros []|reflexivity].
Defined.

(** X17: reactions are told apart by username, not by socket: after a
    registered user has reacted to a message, the same reaction from
    another registered user with the same username changes nothing and
    emits nothing. *)
Theorem same_name_reaction_is_dropped :
  forall s a b o o' messageId emoji ua ub i,
    JsMap.get a (users s) = Some ua ->
    JsMap.get b (users s) = Some ub ->
    User.username ua = User.username ub ->
    JsArray.findIndex (has_id messageId) (messages s) = Some i ->
    handle b o' (add_reaction messageId emoji)
           (fst (handle a o (add_reaction messageId emoji) s))
    = (fst (handle a o (add_reaction messageId emoji) s), []).
Proof.
  intros s a b o o' messageId emoji ua ub i Ga Gb En F; simpl.
  destruct (findIndex_Some _ _ _ _ F) as [m [N _]].
  destruct (add_reaction_found a messageId emoji s i ua m F Ga N)
    as [R [l [E [GR [Hin _]]]]].
  apply add_reaction_again with i ub (Message.with_reactions R m) R l;
    try reflexivity.
  - rewrite E; simpl; rewrite findIndex_update; [assumption | reflexivity].
  - now rewrite E.
  - rewrite E; simpl; now rewrite nth_error_update, N.
  - assumption.
  - now rewrite <- En.
Qed.

Lemma same_name_reaction_is_dropped_witness :
  handle "B" (at_ 7 "7") (add_reaction "5" "+1")
         (fst (handle "A" (at_ 6 "6") (add_reaction "5" "+1")
                      (run trace_namesakes initialState)))
  = (fst (handle "A" (at_ 6 "6") (add_reaction "5" "+1")
                 (run trace_namesakes initialState)), []).
Proof.
  apply (same_name_reaction_is_dropped
           (run trace_namesakes initialState) "A" "B" (at_ 6 "6") (at_ 7 "7")
           "5" "+1"
           (User.mk "A" "Anonymous" "#007bff" true 2%Z)
           (User.mk "B" "Anonymous" "#007bff" false 4%Z) 2);
    reflexivity.
Defined.

(** ** Presence *)

(** X18: [user_join] registers the socket under its own id and keeps the
    order of [users]: a socket that joins for the first time goes to the
    end, one that joins again keeps its place, and nobody else moves. *)
Theorem user_join_keeps_the_order :
  forall sid o userData s,
    JsMap.keys (users (fst (handle sid o (user_join userData) s)))
    = (if JsMap.has sid (users s) then JsMap.keys (users s)
       else JsMap.keys (users s) ++ [sid])
    /\ exists u,
        JsMap.get sid (users (fst (handle sid o (user_join userData) s)))
        = Some u
        /\ User.id u = sid
        /\ User.joinTime u = date1 o
        /\ User.isOwner u = is_ownerId sid (serverSettings s).
Proof.
  intros sid o userData s; simpl; unfold on_user_join; simpl; split.
  - apply keys_set.
  - eexists; split; [apply get_set_same|]; auto.
Qed.

(** X19: in every world the transport can produce, [users] holds
    connected sockets only: a socket that has disconnected, or never
    connected, has no entry. *)
Theorem registered_users_are_connected :
  forall tr w sid,
    deliver_all tr initialWorld = Some w ->
    ~ In sid (live w) ->
    JsMap.get sid (users (server w)) = None.
Proof.
  intros tr w sid R Hn.
  destruct (reachable_inv tr w R) as [[W1 _] _].
  apply get_None; intros Hk; now apply Hn, W1.
Qed.

Lemma registered_users_are_connected_witness :
  JsMap.get "A" (users (server world_stale_owner)) = None.
Proof.
  apply (registered_users_are_connected trace_stale_owner world_stale_owner "A");
    [reflexivity | intros []].
Defined.
